(** * LoadChecker: steady-state detection of a page load

    A shallow embedding of the three copies of the LoadChecker script
    (the prototype-based object with single-use instances, the revised
    static object, and the static object served from
    [public/javascripts/load-checker.js]) together with the part of the
    browser they talk to: the document tree, [MutationObserver],
    [setInterval]/[clearInterval], [setTimeout], the console and the
    resolution of free identifiers. *)

From Stdlib Require Import List Arith Bool Lia String.
Import ListNotations.

Set Warnings "-register-all".

(** ** The document tree *)

Inductive node := Node (nodeType : nat) (childNodes : list node).

(** [document.ELEMENT_NODE] *)
Definition ELEMENT_NODE : nat := 1.

(** The contribution of one entry of a [childNodes] list to the count:
    an element counts for itself plus the elements below it, any other
    node counts for nothing and is not entered. *)
Fixpoint countElementsAt (child : node) : nat :=
  match child with
  | Node ty kids =>
      if ty =? ELEMENT_NODE
      then 1 + (fix loop (children : list node) : nat :=
                  match children with
                  | [] => 0
                  | c :: rest => countElementsAt c + loop rest
                  end) kids
      else 0
  end.

(** [_countElements(children)]: the loop over [children]. *)
Definition _countElements : list node -> nat :=
  fix loop (children : list node) : nat :=
    match children with
    | [] => 0
    | c :: rest => countElementsAt c + loop rest
    end.

(** ** Thrown values, console output, callbacks *)

(** The scripts throw message strings; the constructors keep the kind of
    message and the numbers printed in it. *)
Inductive Thrown :=
| ConfigurationError (ready max : nat)
| ReuseError
| SetupError (cause : Thrown)
| CleanupError (cause : Thrown)
| TimeoutError (intervals : nat)
| ReferenceError (identifier : string)
| TypeError
| HostError
| UserError (payload : nat).

Inductive LogEntry :=
| LogNodeCountChanging (current last : nat)
| LogNodeCountSteady (current steady : nat)
| LogDomChanging (iteration mutations : nat)
| LogDomSteady (iteration steady : nat)
| LogMutations
| LogMutationCounts (current last : nat) (changing : bool) (mutations : nat)
| LogObserverSetup
| LogCannotUseMutationObserver (ex : Thrown)
| LogUsingMutationObserver
| LogUsingNodeCount
| LogPageLoaded (steady : nat)
| LogTimeout (intervals : nat)
| LogExecutedCallback
| LogCallbackFailed (ex : Thrown)
| LogCleaningUp
| LogCleaningUpAfterException (ex : Thrown)
| LogConfigurationError (ready max : nat)
| LogReuseError.

(** A caller-supplied zero-argument function: it is identified by
    [cb_id] and either returns or throws [UserError p]. *)
Record Callback := { cb_id : nat; cb_throws : option nat }.

(** The two functions handed to [setInterval]. *)
Inductive Observer := DomMutationsCountObserver | NodeCountChangeObserver.

(** What [new MutationObserver(...)] followed by [observe] does in this
    browser. *)
Inductive MutationObserverSupport :=
| MO_Unavailable      (* neither window.MutationObserver nor the WebKit one *)
| MO_ObserveThrows    (* the constructor works, observe() throws *)
| MO_Available.

(** The three copies of the script. *)
Inductive Copy :=
| Prototype       (* function LoadChecker() {...} with prototype methods *)
| StaticRevised   (* var LoadChecker = {} with the documented methods *)
| StaticPublic.   (* public/javascripts/load-checker.js *)

(** ** The object state *)

Record LoadChecker := {
  _CHECK_INTERVAL_MS : nat;
  _READY_AFTER_N_STEADY_STATE_INTERVALS : nat;
  _EXIT_REGARDLESS_AFTER_MAX_INTERVALS : nat;
  _domMutationOrNodeCountIntervalCheck : option nat;
  _user_callback : option Callback;
  _lastKnownNodeCountForMutationEvent : nat;
  _lastKnownNodeCountForNodeCountCheck : nat;
  _mutationsCount : nat;
  _intervalCount : nat;
  _steadyStateIntervals : nat;
  _usedInstance : bool
}.

(** The constructor, with the three constants as arguments
    (the scripts write 500, 5 and 20). *)
Definition newLoadChecker (interval ready max : nat) : LoadChecker :=
  {| _CHECK_INTERVAL_MS := interval;
     _READY_AFTER_N_STEADY_STATE_INTERVALS := ready;
     _EXIT_REGARDLESS_AFTER_MAX_INTERVALS := max;
     _domMutationOrNodeCountIntervalCheck := None;
     _user_callback := None;
     _lastKnownNodeCountForMutationEvent := 0;
     _lastKnownNodeCountForNodeCountCheck := 0;
     _mutationsCount := 0;
     _intervalCount := 0;
     _steadyStateIntervals := 0;
     _usedInstance := false |}.

Definition set_handle (v : option nat) (o : LoadChecker) : LoadChecker :=
  {| _CHECK_INTERVAL_MS := _CHECK_INTERVAL_MS o;
     _READY_AFTER_N_STEADY_STATE_INTERVALS := _READY_AFTER_N_STEADY_STATE_INTERVALS o;
     _EXIT_REGARDLESS_AFTER_MAX_INTERVALS := _EXIT_REGARDLESS_AFTER_MAX_INTERVALS o;
     _domMutationOrNodeCountIntervalCheck := v;
     _user_callback := _user_callback o;
     _lastKnownNodeCountForMutationEvent := _lastKnownNodeCountForMutationEvent o;
     _lastKnownNodeCountForNodeCountCheck := _lastKnownNodeCountForNodeCountCheck o;
     _mutationsCount := _mutationsCount o;
     _intervalCount := _intervalCount o;
     _steadyStateIntervals := _steadyStateIntervals o;
     _usedInstance := _usedInstance o |}.

Definition set_user_callback (v : option Callback) (o : LoadChecker) : LoadChecker :=
  {| _CHECK_INTERVAL_MS := _CHECK_INTERVAL_MS o;
     _READY_AFTER_N_STEADY_STATE_INTERVALS := _READY_AFTER_N_STEADY_STATE_INTERVALS o;
     _EXIT_REGARDLESS_AFTER_MAX_INTERVALS := _EXIT_REGARDLESS_AFTER_MAX_INTERVALS o;
     _domMutationOrNodeCountIntervalCheck := _domMutationOrNodeCountIntervalCheck o;
     _user_callback := v;
     _lastKnownNodeCountForMutationEvent := _lastKnownNodeCountForMutationEvent o;
     _lastKnownNodeCountForNodeCountCheck := _lastKnownNodeCountForNodeCountCheck o;
     _mutationsCount := _mutationsCount o;
     _intervalCount := _intervalCount o;
     _steadyStateIntervals := _steadyStateIntervals o;
     _usedInstance := _usedInstance o |}.

Definition set_lastMutationNodeCount (v : nat) (o : LoadChecker) : LoadChecker :=
  {| _CHECK_INTERVAL_MS := _CHECK_INTERVAL_MS o;
     _READY_AFTER_N_STEADY_STATE_INTERVALS := _READY_AFTER_N_STEADY_STATE_INTERVALS o;
     _EXIT_REGARDLESS_AFTER_MAX_INTERVALS := _EXIT_REGARDLESS_AFTER_MAX_INTERVALS o;
     _domMutationOrNodeCountIntervalCheck := _domMutationOrNodeCountIntervalCheck o;
     _user_callback := _user_callback o;
     _lastKnownNodeCountForMutationEvent := v;
     _lastKnownNodeCountForNodeCountCheck := _lastKnownNodeCountForNodeCountCheck o;
     _mutationsCount := _mutationsCount o;
     _intervalCount := _intervalCount o;
     _steadyStateIntervals := _steadyStateIntervals o;
     _usedInstance := _usedInstance o |}.

Definition set_lastCheckNodeCount (v : nat) (o : LoadChecker) : LoadChecker :=
  {| _CHECK_INTERVAL_MS := _CHECK_INTERVAL_MS o;
     _READY_AFTER_N_STEADY_STATE_INTERVALS := _READY_AFTER_N_STEADY_STATE_INTERVALS o;
     _EXIT_REGARDLESS_AFTER_MAX_INTERVALS := _EXIT_REGARDLESS_AFTER_MAX_INTERVALS o;
     _domMutationOrNodeCountIntervalCheck := _domMutationOrNodeCountIntervalCheck o;
     _user_callback := _user_callback o;
     _lastKnownNodeCountForMutationEvent := _lastKnownNodeCountForMutationEvent o;
     _lastKnownNodeCountForNodeCountCheck := v;
     _mutationsCount := _mutationsCount o;
     _intervalCount := _intervalCount o;
     _steadyStateIntervals := _steadyStateIntervals o;
     _usedInstance := _usedInstance o |}.

Definition set_mutationsCount (v : nat) (o : LoadChecker) : LoadChecker :=
  {| _CHECK_INTERVAL_MS := _CHECK_INTERVAL_MS o;
     _READY_AFTER_N_STEADY_STATE_INTERVALS := _READY_AFTER_N_STEADY_STATE_INTERVALS o;
     _EXIT_REGARDLESS_AFTER_MAX_INTERVALS := _EXIT_REGARDLESS_AFTER_MAX_INTERVALS o;
     _domMutationOrNodeCountIntervalCheck := _domMutationOrNodeCountIntervalCheck o;
     _user_callback := _user_callback o;
     _lastKnownNodeCountForMutationEvent := _lastKnownNodeCountForMutationEvent o;
     _lastKnownNodeCountForNodeCountCheck := _lastKnownNodeCountForNodeCountCheck o;
     _mutationsCount := v;
     _intervalCount := _intervalCount o;
     _steadyStateIntervals := _steadyStateIntervals o;
     _usedInstance := _usedInstance o |}.

Definition set_intervalCount (v : nat) (o : LoadChecker) : LoadChecker :=
  {| _CHECK_INTERVAL_MS := _CHECK_INTERVAL_MS o;
     _READY_AFTER_N_STEADY_STATE_INTERVALS := _READY_AFTER_N_STEADY_STATE_INTERVALS o;
     _EXIT_REGARDLESS_AFTER_MAX_INTERVALS := _EXIT_REGARDLESS_AFTER_MAX_INTERVALS o;
     _domMutationOrNodeCountIntervalCheck := _domMutationOrNodeCountIntervalCheck o;
     _user_callback := _user_callback o;
     _lastKnownNodeCountForMutationEvent := _lastKnownNodeCountForMutationEvent o;
     _lastKnownNodeCountForNodeCountCheck := _lastKnownNodeCountForNodeCountCheck o;
     _mutationsCount := _mutationsCount o;
     _intervalCount := v;
     _steadyStateIntervals := _steadyStateIntervals o;
     _usedInstance := _usedInstance o |}.

Definition set_steadyStateIntervals (v : nat) (o : LoadChecker) : LoadChecker :=
  {| _CHECK_INTERVAL_MS := _CHECK_INTERVAL_MS o;
     _READY_AFTER_N_STEADY_STATE_INTERVALS := _READY_AFTER_N_STEADY_STATE_INTERVALS o;
     _EXIT_REGARDLESS_AFTER_MAX_INTERVALS := _EXIT_REGARDLESS_AFTER_MAX_INTERVALS o;
     _domMutationOrNodeCountIntervalCheck := _domMutationOrNodeCountIntervalCheck o;
     _user_callback := _user_callback o;
     _lastKnownNodeCountForMutationEvent := _lastKnownNodeCountForMutationEvent o;
     _lastKnownNodeCountForNodeCountCheck := _lastKnownNodeCountForNodeCountCheck o;
     _mutationsCount := _mutationsCount o;
     _intervalCount := _intervalCount o;
     _steadyStateIntervals := v;
     _usedInstance := _usedInstance o |}.

Definition set_usedInstance (v : bool) (o : LoadChecker) : LoadChecker :=
  {| _CHECK_INTERVAL_MS := _CHECK_INTERVAL_MS o;
     _READY_AFTER_N_STEADY_STATE_INTERVALS := _READY_AFTER_N_STEADY_STATE_INTERVALS o;
     _EXIT_REGARDLESS_AFTER_MAX_INTERVALS := _EXIT_REGARDLESS_AFTER_MAX_INTERVALS o;
     _domMutationOrNodeCountIntervalCheck := _domMutationOrNodeCountIntervalCheck o;
     _user_callback := _user_callback o;
     _lastKnownNodeCountForMutationEvent := _lastKnownNodeCountForMutationEvent o;
     _lastKnownNodeCountForNodeCountCheck := _lastKnownNodeCountForNodeCountCheck o;
     _mutationsCount := _mutationsCount o;
     _intervalCount := _intervalCount o;
     _steadyStateIntervals := _steadyStateIntervals o;
     _usedInstance := v |}.

(** ** The browser *)

Record Host := {
  (* the environment the script finds *)
  mutationObserverSupport : MutationObserverSupport;
  setIntervalWorks : bool;
  callbackIdentifierBound : bool;   (* does a global named [callback] exist *)
  (* the page *)
  document : list node;             (* document.childNodes *)
  (* timers and subscriptions held on behalf of the script *)
  nextTimerId : nat;
  activeIntervals : list (nat * Observer);
  pendingTimeouts : nat;            (* armed setTimeout re-runs of the driver *)
  mutationSubscriptions : nat;      (* observe() registrations *)
  (* what has been observed from outside *)
  invoked : list nat;               (* cb_id of every callback invocation, latest first *)
  console : list LogEntry;          (* latest first *)
  uncaught : list Thrown            (* errors that escaped a timer callback, latest first *)
}.

Definition set_document (v : list node) (h : Host) : Host :=
  {| mutationObserverSupport := mutationObserverSupport h;
     setIntervalWorks := setIntervalWorks h;
     callbackIdentifierBound := callbackIdentifierBound h;
     document := v;
     nextTimerId := nextTimerId h;
     activeIntervals := activeIntervals h;
     pendingTimeouts := pendingTimeouts h;
     mutationSubscriptions := mutationSubscriptions h;
     invoked := invoked h;
     console := console h;
     uncaught := uncaught h |}.

Definition set_timers (next : nat) (v : list (nat * Observer)) (h : Host) : Host :=
  {| mutationObserverSupport := mutationObserverSupport h;
     setIntervalWorks := setIntervalWorks h;
     callbackIdentifierBound := callbackIdentifierBound h;
     document := document h;
     nextTimerId := next;
     activeIntervals := v;
     pendingTimeouts := pendingTimeouts h;
     mutationSubscriptions := mutationSubscriptions h;
     invoked := invoked h;
     console := console h;
     uncaught := uncaught h |}.

Definition set_pendingTimeouts (v : nat) (h : Host) : Host :=
  {| mutationObserverSupport := mutationObserverSupport h;
     setIntervalWorks := setIntervalWorks h;
     callbackIdentifierBound := callbackIdentifierBound h;
     document := document h;
     nextTimerId := nextTimerId h;
     activeIntervals := activeIntervals h;
     pendingTimeouts := v;
     mutationSubscriptions := mutationSubscriptions h;
     invoked := invoked h;
     console := console h;
     uncaught := uncaught h |}.

Definition set_mutationSubscriptions (v : nat) (h : Host) : Host :=
  {| mutationObserverSupport := mutationObserverSupport h;
     setIntervalWorks := setIntervalWorks h;
     callbackIdentifierBound := callbackIdentifierBound h;
     document := document h;
     nextTimerId := nextTimerId h;
     activeIntervals := activeIntervals h;
     pendingTimeouts := pendingTimeouts h;
     mutationSubscriptions := v;
     invoked := invoked h;
     console := console h;
     uncaught := uncaught h |}.

Definition set_invoked (v : list nat) (h : Host) : Host :=
  {| mutationObserverSupport := mutationObserverSupport h;
     setIntervalWorks := setIntervalWorks h;
     callbackIdentifierBound := callbackIdentifierBound h;
     document := document h;
     nextTimerId := nextTimerId h;
     activeIntervals := activeIntervals h;
     pendingTimeouts := pendingTimeouts h;
     mutationSubscriptions := mutationSubscriptions h;
     invoked := v;
     console := console h;
     uncaught := uncaught h |}.

Definition set_console (v : list LogEntry) (h : Host) : Host :=
  {| mutationObserverSupport := mutationObserverSupport h;
     setIntervalWorks := setIntervalWorks h;
     callbackIdentifierBound := callbackIdentifierBound h;
     document := document h;
     nextTimerId := nextTimerId h;
     activeIntervals := activeIntervals h;
     pendingTimeouts := pendingTimeouts h;
     mutationSubscriptions := mutationSubscriptions h;
     invoked := invoked h;
     console := v;
     uncaught := uncaught h |}.

Definition set_uncaught (v : list Thrown) (h : Host) : Host :=
  {| mutationObserverSupport := mutationObserverSupport h;
     setIntervalWorks := setIntervalWorks h;
     callbackIdentifierBound := callbackIdentifierBound h;
     document := document h;
     nextTimerId := nextTimerId h;
     activeIntervals := activeIntervals h;
     pendingTimeouts := pendingTimeouts h;
     mutationSubscriptions := mutationSubscriptions h;
     invoked := invoked h;
     console := console h;
     uncaught := v |}.

(** The script object together with the browser it runs in. *)
Record World := { self : LoadChecker; host : Host }.

(** ** Statements: state passing with JavaScript completions *)

Inductive Completion (A : Type) :=
| Normal (a : A)
| Throw (ex : Thrown).
Arguments Normal {A} a.
Arguments Throw {A} ex.

Definition JS (A : Type) : Type := World -> Completion A * World.

Definition ret {A} (a : A) : JS A := fun w => (Normal a, w).

Definition throw {A} (ex : Thrown) : JS A := fun w => (Throw ex, w).

Definition bind {A B} (m : JS A) (k : A -> JS B) : JS B :=
  fun w =>
    match m w with
    | (Normal a, w') => k a w'
    | (Throw ex, w') => (Throw ex, w')
    end.

(** [try { body } catch (ex) { handler }] *)
Definition try_catch {A} (body : JS A) (handler : Thrown -> JS A) : JS A :=
  fun w =>
    match body w with
    | (Normal a, w') => (Normal a, w')
    | (Throw ex, w') => handler ex w'
    end.

(** [try { body } finally { final }]: [final] always runs; if it throws,
    its exception replaces the completion of [body]. *)
Definition try_finally {A} (body : JS A) (final : JS unit) : JS A :=
  fun w =>
    match body w with
    | (c, w') =>
        match final w' with
        | (Normal _, w'') => (c, w'')
        | (Throw ex, w'') => (Throw ex, w'')
        end
    end.

Declare Scope js_scope.
Delimit Scope js_scope with js.
Notation "x <- m ;; k" := (bind m (fun x => k))
  (at level 61, m at next level, right associativity) : js_scope.
Notation "m ;; k" := (bind m (fun _ => k))
  (at level 61, right associativity) : js_scope.
Local Open Scope js_scope.

(** Reading and writing a property of [this] (or of the global
    [LoadChecker] object in the static copies). *)
Definition this {A} (field : LoadChecker -> A) : JS A :=
  fun w => (Normal (field (self w)), w).

Definition assign (update : LoadChecker -> LoadChecker) : JS unit :=
  fun w => (Normal tt, {| self := update (self w); host := host w |}).

Definition browser {A} (field : Host -> A) : JS A :=
  fun w => (Normal (field (host w)), w).

Definition effect (update : Host -> Host) : JS unit :=
  fun w => (Normal tt, {| self := self w; host := update (host w) |}).

Definition console_log (e : LogEntry) : JS unit :=
  effect (fun h => set_console (e :: console h) h).

(** Evaluating the free identifier [callback]: a ReferenceError unless
    the page has a global of that name. *)
Definition resolve_callback_identifier : JS unit :=
  bound <- browser callbackIdentifierBound ;;
  if bound then ret tt else throw (ReferenceError "callback").

(** [setInterval(observer, this._CHECK_INTERVAL_MS)] *)
Definition setInterval (f : Observer) : JS nat :=
  works <- browser setIntervalWorks ;;
  if works then
    id <- browser nextTimerId ;;
    effect (fun h => set_timers (S id) (activeIntervals h ++ [(id, f)]) h) ;;
    ret id
  else throw HostError.

(** [clearInterval(handle)]: unknown or null handles are ignored. *)
Definition clearInterval (handle : option nat) : JS unit :=
  match handle with
  | None => ret tt
  | Some id =>
      effect (fun h =>
        set_timers (nextTimerId h)
          (filter (fun t => negb (fst t =? id)) (activeIntervals h)) h)
  end.

(** [setTimeout(function(){ instance._executeCallbackAfterPageIsLoaded() }, ms)] *)
Definition setTimeout_driver : JS unit :=
  effect (fun h => set_pendingTimeouts (S (pendingTimeouts h)) h).

(** Calling [this._user_callback()]; the property is [null] until
    [callWhenReadyToGo] stores its argument. *)
Definition call_user_callback : JS unit :=
  f <- this _user_callback ;;
  match f with
  | None => throw TypeError
  | Some cb =>
      effect (fun h => set_invoked (cb_id cb :: invoked h) h) ;;
      match cb_throws cb with
      | Some p => throw (UserError p)
      | None => ret tt
      end
  end.

(** ** The script *)

Section Script.

(** Which of the three copies is being run. *)
Variable copy : Copy.

(** Only [public/javascripts/load-checker.js] leaves the steady-state
    counter alone when the node count changed. *)
Definition resetsSteadyStateOnNodeCountChange : bool :=
  match copy with
  | StaticPublic => false
  | Prototype | StaticRevised => true
  end.

(** Only the prototype copy has [_usedInstance] and [_initializeCounters]. *)
Definition isPrototype : bool :=
  match copy with
  | Prototype => true
  | StaticRevised | StaticPublic => false
  end.

(** [_nodeCountChangeObserver] *)
Definition _nodeCountChangeObserver : JS unit :=
  children <- browser document ;;
  let currentNodeCount := _countElements children in
  last <- this _lastKnownNodeCountForNodeCountCheck ;;
  let isNodeListChanging := negb (last =? currentNodeCount) in
  if isNodeListChanging then
    (if resetsSteadyStateOnNodeCountChange
     then assign (set_steadyStateIntervals 0)
     else ret tt) ;;
    assign (set_lastCheckNodeCount currentNodeCount) ;;
    last' <- this _lastKnownNodeCountForNodeCountCheck ;;
    console_log (LogNodeCountChanging currentNodeCount last')
  else
    assign (fun o => set_steadyStateIntervals (S (_steadyStateIntervals o)) o) ;;
    steady <- this _steadyStateIntervals ;;
    console_log (LogNodeCountSteady currentNodeCount steady).

(** [_domMutationsCountObserver] *)
Definition _domMutationsCountObserver : JS unit :=
  mutations <- this _mutationsCount ;;
  let isDomChanging := 0 <? mutations in
  if isDomChanging then
    iteration <- this _intervalCount ;;
    console_log (LogDomChanging iteration mutations) ;;
    assign (set_mutationsCount 0) ;;
    assign (set_steadyStateIntervals 0)
  else
    assign (fun o => set_steadyStateIntervals (S (_steadyStateIntervals o)) o) ;;
    iteration <- this _intervalCount ;;
    steady <- this _steadyStateIntervals ;;
    console_log (LogDomSteady iteration steady).

(** The function given to [new MutationObserver(...)] inside
    [_setupMutationObserverIfPossible]. *)
Definition mutationObserverCallback : JS unit :=
  console_log LogMutations ;;
  children <- browser document ;;
  let currentNodeCount := _countElements children in
  last <- this _lastKnownNodeCountForMutationEvent ;;
  let isNodeListCountChanging := negb (last =? currentNodeCount) in
  assign (set_lastMutationNodeCount currentNodeCount) ;;
  (if isNodeListCountChanging
   then assign (fun o => set_mutationsCount (S (_mutationsCount o)) o)
   else ret tt) ;;
  last' <- this _lastKnownNodeCountForMutationEvent ;;
  mutations <- this _mutationsCount ;;
  console_log (LogMutationCounts currentNodeCount last' isNodeListCountChanging mutations).

(** [_setupMutationObserverIfPossible].  With no constructor available
    [new MutationObserver(...)] is a TypeError; a constructed observer is
    always truthy, so the success flag is set whenever [observe] returns. *)
Definition _setupMutationObserverIfPossible : JS bool :=
  try_catch
    (support <- browser mutationObserverSupport ;;
     match support with
     | MO_Unavailable => throw TypeError
     | MO_ObserveThrows => throw HostError
     | MO_Available =>
         effect (fun h => set_mutationSubscriptions (S (mutationSubscriptions h)) h) ;;
         console_log LogObserverSetup ;;
         ret true
     end)
    (fun ex =>
       console_log (LogCannotUseMutationObserver ex) ;;
       ret false).

(** [_initializeCounters] in the prototype copy; the static copies reset
    the first three counters at the top of [_setupLoadChecker]. *)
Definition _initializeCounters : JS unit :=
  assign (set_steadyStateIntervals 0) ;;
  assign (set_mutationsCount 0) ;;
  assign (set_intervalCount 0) ;;
  if isPrototype then
    assign (set_lastMutationNodeCount 0) ;;
    assign (set_lastCheckNodeCount 0)
  else ret tt.

(** [_setupLoadChecker] *)
Definition _setupLoadChecker : JS unit :=
  try_catch
    (_initializeCounters ;;
     useMutations <- _setupMutationObserverIfPossible ;;
     if useMutations then
       id <- setInterval DomMutationsCountObserver ;;
       assign (set_handle (Some id)) ;;
       console_log LogUsingMutationObserver
     else
       id <- setInterval NodeCountChangeObserver ;;
       assign (set_handle (Some id)) ;;
       console_log LogUsingNodeCount)
    (fun ex => throw (SetupError ex)).

(** [_cleanupLoadChecker] *)
Definition _cleanupLoadChecker : JS unit :=
  try_catch
    (handle <- this _domMutationOrNodeCountIntervalCheck ;;
     clearInterval handle)
    (fun ex => throw (CleanupError ex)).

(** [_isPageLoaded] *)
Definition _isPageLoaded : JS bool :=
  steady <- this _steadyStateIntervals ;;
  ready <- this _READY_AFTER_N_STEADY_STATE_INTERVALS ;;
  if ready <=? steady then
    console_log (LogPageLoaded steady) ;;
    ret true
  else
    assign (fun o => set_intervalCount (S (_intervalCount o)) o) ;;
    count <- this _intervalCount ;;
    max <- this _EXIT_REGARDLESS_AFTER_MAX_INTERVALS ;;
    if max <? count then
      console_log (LogTimeout count) ;;
      throw (TimeoutError count)
    else ret false.

(** [_executeCallbackAfterPageIsLoaded].  Both [console.log] calls around
    the user callback mention the identifier [callback], which is not a
    variable of this function: it is looked up in the global scope before
    anything is printed. *)
Definition _executeCallbackAfterPageIsLoaded : JS unit :=
  try_catch
    (loaded <- _isPageLoaded ;;
     if loaded then
       try_finally
         (try_catch
            (call_user_callback ;;
             resolve_callback_identifier ;;
             console_log LogExecutedCallback)
            (fun ex =>
               resolve_callback_identifier ;;
               console_log (LogCallbackFailed ex)))
         (console_log LogCleaningUp ;;
          _cleanupLoadChecker)
     else setTimeout_driver)
    (fun ex =>
       console_log (LogCleaningUpAfterException ex) ;;
       _cleanupLoadChecker ;;
       throw ex).

(** [_validateConfiguration] *)
Definition _validateConfiguration : JS unit :=
  ready <- this _READY_AFTER_N_STEADY_STATE_INTERVALS ;;
  max <- this _EXIT_REGARDLESS_AFTER_MAX_INTERVALS ;;
  if max <=? ready then
    console_log (LogConfigurationError ready max) ;;
    throw (ConfigurationError ready max)
  else ret tt.

(** [callWhenReadyToGo(callback)] *)
Definition callWhenReadyToGo (callback : Callback) : JS unit :=
  (if isPrototype then
     used <- this _usedInstance ;;
     if used then
       console_log LogReuseError ;;
       throw ReuseError
     else assign (set_usedInstance true)
   else ret tt) ;;
  _validateConfiguration ;;
  _setupLoadChecker ;;
  assign (set_user_callback (Some callback)) ;;
  _executeCallbackAfterPageIsLoaded.

(** ** The event loop *)

Definition observer (f : Observer) : JS unit :=
  match f with
  | DomMutationsCountObserver => _domMutationsCountObserver
  | NodeCountChangeObserver => _nodeCountChangeObserver
  end.

(** Running a function from the event loop: whatever it throws is an
    uncaught error of the page. *)
Definition dispatch (f : JS unit) (w : World) : World :=
  match f w with
  | (Normal _, w') => w'
  | (Throw ex, w') =>
      {| self := self w'; host := set_uncaught (ex :: uncaught (host w')) (host w') |}
  end.

Inductive Event :=
| DomMutates (document' : list node)  (* the page content becomes document' *)
| IntervalElapses                      (* the setInterval period is over *)
| TimeoutElapses.                      (* an armed setTimeout is due *)

Definition step (e : Event) (w : World) : World :=
  match e with
  | DomMutates document' =>
      let w' := {| self := self w; host := set_document document' (host w) |} in
      Nat.iter (mutationSubscriptions (host w')) (dispatch mutationObserverCallback) w'
  | IntervalElapses =>
      fold_left (fun w' t => dispatch (observer (snd t)) w')
                (activeIntervals (host w)) w
  | TimeoutElapses =>
      match pendingTimeouts (host w) with
      | 0 => w
      | S n =>
          dispatch _executeCallbackAfterPageIsLoaded
            {| self := self w; host := set_pendingTimeouts n (host w) |}
      end
  end.

Definition run (events : list Event) (w : World) : World :=
  fold_left (fun w' e => step e w') events w.

(** One period of the fake clock: the interval was registered before the
    driver's timeout, so the observer runs first, the driver second. *)
Definition tick : list Event := [IntervalElapses; TimeoutElapses].

(** Starting a watch from script, as the page's own top-level code does:
    the completion of the call and the world it leaves. *)
Definition start (callback : Callback) (w : World) : Completion unit * World :=
  callWhenReadyToGo callback w.

End Script.

(** ** Watches under a fake clock *)

(** A page that has not run the script yet: no timers, no subscription,
    nothing called, nothing printed. *)
Definition freshPage (support : MutationObserverSupport) (works bound : bool)
    (doc : list node) (next : nat) : Host :=
  {| mutationObserverSupport := support;
     setIntervalWorks := works;
     callbackIdentifierBound := bound;
     document := doc;
     nextTimerId := next;
     activeIntervals := [];
     pendingTimeouts := 0;
     mutationSubscriptions := 0;
     invoked := [];
     console := [];
     uncaught := [] |}.

(** What happens during one period: the page is either left alone or it
    changes to a new content (which notifies the subscribers); then the
    period ends. *)
Definition period (input : option (list node)) : list Event :=
  match input with
  | Some d => DomMutates d :: tick
  | None => tick
  end.

Definition periods (inputs : list (option (list node))) : list Event :=
  flat_map period inputs.

(** [n] periods during which the page does not change. *)
Definition quiet (n : nat) : list Event := periods (repeat None n).

(** Periods in each of which the page changes to the next content. *)
Definition busy (ds : list (list node)) : list Event := periods (map Some ds).

Definition loaded (w : World) : bool :=
  match invoked (host w) with
  | [] => false
  | _ :: _ => true
  end.

Definition isTimeout (ex : Thrown) : bool :=
  match ex with
  | TimeoutError _ => true
  | _ => false
  end.

Definition timedOut (w : World) : bool := existsb isTimeout (uncaught (host w)).

Inductive Verdict :=
| StillWatching
| LoadedAfter (ticks : nat)
| TimedOutAfter (ticks : nat)
| Rejected (ex : Thrown).

(** The verdict of a watch that has been going for [elapsed] periods and
    is fed the remaining [inputs], one per period. *)
Fixpoint verdictFrom (copy : Copy) (elapsed : nat)
    (inputs : list (option (list node))) (w : World) : Verdict :=
  if loaded w then LoadedAfter elapsed
  else if timedOut w then TimedOutAfter elapsed
  else match inputs with
       | [] => StillWatching
       | i :: rest => verdictFrom copy (S elapsed) rest (run copy (period i) w)
       end.

(** Calling the entry point and then letting the clock run. *)
Definition watch (copy : Copy) (callback : Callback)
    (inputs : list (option (list node))) (w : World) : Verdict :=
  match start copy callback w with
  | (Normal _, w') => verdictFrom copy 0 inputs w'
  | (Throw ex, w') => if loaded w' then LoadedAfter 0 else Rejected ex
  end.

(** ** The states of a watch *)

(** A watch in progress with observer [f]: one interval timer whose
    handle the object holds, one armed re-run of the driver, a stored
    callback that has not been called, no uncaught error.  With the
    mutation-based observer the object holds one subscription and the
    mutation counter is at rest between periods. *)
Record Armed (f : Observer) (cb : Callback) (w : World) : Prop := {
  armed_handle :
    exists id, _domMutationOrNodeCountIntervalCheck (self w) = Some id
               /\ activeIntervals (host w) = [(id, f)];
  armed_timeout : pendingTimeouts (host w) = 1;
  armed_callback : _user_callback (self w) = Some cb;
  armed_invoked : invoked (host w) = [];
  armed_uncaught : uncaught (host w) = [];
  armed_strategy :
    match f with
    | DomMutationsCountObserver =>
        mutationSubscriptions (host w) = 1 /\ _mutationsCount (self w) = 0
    | NodeCountChangeObserver => mutationSubscriptions (host w) = 0
    end
}.

(** The callback has been called, once, and every timer is gone. *)
Record Fired (cb : Callback) (w : World) : Prop := {
  fired_invoked : invoked (host w) = [cb_id cb];
  fired_intervals : activeIntervals (host w) = [];
  fired_timeouts : pendingTimeouts (host w) = 0;
  fired_no_timeout : timedOut w = false
}.

(** The watch gave up: the timeout error is the page's only uncaught
    error, the callback was never called, every timer is gone. *)
Record Expired (w : World) : Prop := {
  expired_uncaught :
    uncaught (host w) = [TimeoutError (_intervalCount (self w))];
  expired_invoked : invoked (host w) = [];
  expired_intervals : activeIntervals (host w) = [];
  expired_timeouts : pendingTimeouts (host w) = 0
}.

(** What the constants, the stored callback and the browser's
    capabilities are: nothing after setup changes them. *)
Definition setting (w : World) :=
  (_CHECK_INTERVAL_MS (self w),
   _READY_AFTER_N_STEADY_STATE_INTERVALS (self w),
   _EXIT_REGARDLESS_AFTER_MAX_INTERVALS (self w),
   _usedInstance (self w),
   callbackIdentifierBound (host w)).

(** Whether observer [f] will report a change at the end of a period
    with the given input. *)
Definition detects (f : Observer) (input : option (list node)) (w : World) : bool :=
  match f with
  | DomMutationsCountObserver =>
      match input with
      | Some d => negb (_lastKnownNodeCountForMutationEvent (self w) =? _countElements d)
      | None => false
      end
  | NodeCountChangeObserver =>
      negb (_lastKnownNodeCountForNodeCountCheck (self w) =?
            _countElements (match input with
                            | Some d => d
                            | None => document (host w)
                            end))
  end.

(** The steady-state counter after the observer of a period has run. *)
Definition steadyAfter (copy : Copy) (f : Observer) (input : option (list node))
    (w : World) : nat :=
  if detects f input w then
    match f with
    | DomMutationsCountObserver => 0
    | NodeCountChangeObserver =>
        if resetsSteadyStateOnNodeCountChange copy then 0
        else _steadyStateIntervals (self w)
    end
  else S (_steadyStateIntervals (self w)).

(** The node count the observer [f] compares the next page content with. *)
Definition baseline (f : Observer) (w : World) : nat :=
  match f with
  | DomMutationsCountObserver => _lastKnownNodeCountForMutationEvent (self w)
  | NodeCountChangeObserver => _lastKnownNodeCountForNodeCountCheck (self w)
  end.

(** ** Scenarios *)

(** A newly constructed object on a page that has not run the script. *)
Definition pageLoad (interval ready max : nat) (support : MutationObserverSupport)
    (works bound : bool) (doc : list node) (next : nat) : World :=
  {| self := newLoadChecker interval ready max;
     host := freshPage support works bound doc next |}.

(** The observer [_setupLoadChecker] installs. *)
Definition chosenObserver (support : MutationObserverSupport) : Observer :=
  match support with
  | MO_Available => DomMutationsCountObserver
  | MO_Unavailable | MO_ObserveThrows => NodeCountChangeObserver
  end.

(** "The callback fires after exactly [n] periods of an unchanging page,
    once, and the interval timer is gone as soon as it has fired." *)
Definition callbackFiresAfter (copy : Copy) (cb : Callback) (w : World) (n : nat) : Prop :=
  forall k,
    let w' := run copy (quiet k) (snd (start copy cb w)) in
    (k < n -> invoked (host w') = []) /\
    (n <= k -> invoked (host w') = [cb_id cb] /\ activeIntervals (host w') = []).

(** The number of quiet periods a watch really needs.  The polling
    observer compares its first count with the initial 0, so a page that
    has any element costs it one more period. *)
Definition dueAfter (support : MutationObserverSupport) (ready : nat)
    (doc : list node) : nat :=
  match support with
  | MO_Available => ready
  | MO_Unavailable | MO_ObserveThrows =>
      if (ready =? 0) || (_countElements doc =? 0) then ready else S ready
  end.

(** "Both observers give this watch the same verdict": the same object
    on the same page, once in a browser where the mutation-based observer
    can be set up and once in one where it cannot. *)
Definition strategiesAgreeOn (copy : Copy) (cb : Callback)
    (inputs : list (option (list node))) (interval ready max : nat)
    (fallback : MutationObserverSupport) (bound : bool) (doc : list node)
    (next : nat) : Prop :=
  watch copy cb inputs (pageLoad interval ready max MO_Available true bound doc next) =
  watch copy cb inputs (pageLoad interval ready max fallback true bound doc next).

(** Every content of the list has another node count than the one before
    it, the first another one than [last]. *)
Fixpoint everChanging (last : nat) (ds : list (list node)) : bool :=
  match ds with
  | [] => true
  | d :: rest =>
      negb (last =? _countElements d) && everChanging (_countElements d) rest
  end.


(** The test each observer makes when its interval elapses:
    [isDomChanging] and [isNodeListChanging]. *)
Definition changeDetected (f : Observer) (w : World) : bool :=
  match f with
  | DomMutationsCountObserver => 0 <? _mutationsCount (self w)
  | NodeCountChangeObserver =>
      negb (_lastKnownNodeCountForNodeCountCheck (self w) =?
            _countElements (document (host w)))
  end.

(** The ways in which setting up the mutation-based observer fails. *)
Definition mutationSetupFails (support : MutationObserverSupport) : bool :=
  match support with
  | MO_Available => false
  | MO_Unavailable | MO_ObserveThrows => true
  end.

(** Whether the interval timer with this handle is still running. *)
Definition intervalRunning (handle : option nat) (w : World) : bool :=
  match handle with
  | None => false
  | Some id => existsb (fun t => fst t =? id) (activeIntervals (host w))
  end.

(** What can happen to an object over time: the page's script calls the
    entry point, or the event loop delivers an event. *)
Inductive Activity :=
| Calls (cb : Callback)
| Happens (e : Event).

Definition act (copy : Copy) (a : Activity) (w : World) : World :=
  match a with
  | Calls cb => snd (start copy cb w)
  | Happens e => step copy e w
  end.

Definition history (copy : Copy) (activities : list Activity) (w : World) : World :=
  fold_left (fun w' a => act copy a w') activities w.

(** The values used in the examples. *)

Definition alertCallback : Callback := {| cb_id := 1; cb_throws := None |}.

Definition failingCallback : Callback := {| cb_id := 2; cb_throws := Some 13 |}.

(** <html><head></head><body></body></html> below a doctype *)
Definition emptyPage : list node :=
  [Node 10 []; Node 1 [Node 1 []; Node 1 []]].

(** The same page with a paragraph and its text in the body. *)
Definition filledPage : list node :=
  [Node 10 []; Node 1 [Node 1 []; Node 1 [Node 1 [Node 3 []]]]].

(** The empty page with a text in its body: other nodes, the same three
    elements. *)
Definition textPage : list node :=
  [Node 10 []; Node 1 [Node 1 []; Node 1 [Node 3 []]]].

(** ** Views of a world *)

(** The timers, the calls and the errors seen from outside, and the
    counter of elapsed intervals. *)
Definition outcomeView (w : World) :=
  (invoked (host w), uncaught (host w), activeIntervals (host w),
   pendingTimeouts (host w), _intervalCount (self w)).

(** Later worlds of the same object: a used instance stays used, and
    subscriptions are only ever added. *)
Definition Later (w w' : World) : Prop :=
  (_usedInstance (self w) = true -> _usedInstance (self w') = true) /\
  mutationSubscriptions (host w) <= mutationSubscriptions (host w').

(** Worlds that differ in nothing the entry point's guards look at, and
    hold the same subscriptions. *)
Definition Keeps (w w' : World) : Prop :=
  setting w' = setting w /\
  mutationSubscriptions (host w') = mutationSubscriptions (host w).

(** ** The whole tree *)

(** Every node at and below one entry of a [childNodes] list, of
    whatever type. *)
Fixpoint countNodesAt (child : node) : nat :=
  match child with
  | Node _ kids =>
      1 + (fix loop (children : list node) : nat :=
             match children with
             | [] => 0
             | c :: rest => countNodesAt c + loop rest
             end) kids
  end.

Definition countNodes : list node -> nat :=
  fix loop (children : list node) : nat :=
    match children with
    | [] => 0
    | c :: rest => countNodesAt c + loop rest
    end.

(** [children[i].nodeType === document.ELEMENT_NODE] *)
Definition isElement (child : node) : bool :=
  match child with
  | Node ty _ => ty =? ELEMENT_NODE
  end.

(** A subtree made of elements only. *)
Fixpoint onlyElementsAt (child : node) : bool :=
  match child with
  | Node ty kids =>
      (ty =? ELEMENT_NODE)
      && (fix loop (children : list node) : bool :=
            match children with
            | [] => true
            | c :: rest => onlyElementsAt c && loop rest
            end) kids
  end.

Definition onlyElements : list node -> bool :=
  fix loop (children : list node) : bool :=
    match children with
    | [] => true
    | c :: rest => onlyElementsAt c && loop rest
    end.

(** The tree that is left when every node that is not an element is cut
    out together with what is below it. *)
Fixpoint pruneAt (child : node) : list node :=
  match child with
  | Node ty kids =>
      if ty =? ELEMENT_NODE
      then [Node ty ((fix loop (children : list node) : list node :=
                        match children with
                        | [] => []
                        | c :: rest => pruneAt c ++ loop rest
                        end) kids)]
      else []
  end.

Definition prune : list node -> list node :=
  fix loop (children : list node) : list node :=
    match children with
    | [] => []
    | c :: rest => pruneAt c ++ loop rest
    end.

(** ** EventUtil (the static copies) *)

Module EventUtil.

(** An object handed to [addEventHandler]: which of the four listener
    methods it has, what has been registered through them, and the
    properties scripts have assigned to it.  Functions are identified by
    a number. *)
Record EventTarget := {
  hasAddEventListener : bool;
  hasRemoveEventListener : bool;
  hasAttachEvent : bool;
  hasDetachEvent : bool;
  listeners : list (string * nat * bool);   (* type, function, useCapture *)
  attached : list (string * nat);           (* "on" + type, function *)
  properties : list (string * option nat)   (* latest assignment first; None is null *)
}.

Definition set_listeners (v : list (string * nat * bool)) (t : EventTarget) : EventTarget :=
  {| hasAddEventListener := hasAddEventListener t;
     hasRemoveEventListener := hasRemoveEventListener t;
     hasAttachEvent := hasAttachEvent t;
     hasDetachEvent := hasDetachEvent t;
     listeners := v;
     attached := attached t;
     properties := properties t |}.

Definition set_attached (v : list (string * nat)) (t : EventTarget) : EventTarget :=
  {| hasAddEventListener := hasAddEventListener t;
     hasRemoveEventListener := hasRemoveEventListener t;
     hasAttachEvent := hasAttachEvent t;
     hasDetachEvent := hasDetachEvent t;
     listeners := listeners t;
     attached := v;
     properties := properties t |}.

Definition set_properties (v : list (string * option nat)) (t : EventTarget) : EventTarget :=
  {| hasAddEventListener := hasAddEventListener t;
     hasRemoveEventListener := hasRemoveEventListener t;
     hasAttachEvent := hasAttachEvent t;
     hasDetachEvent := hasDetachEvent t;
     listeners := listeners t;
     attached := attached t;
     properties := v |}.

Definition sameListener (a b : string * nat * bool) : bool :=
  String.eqb (fst (fst a)) (fst (fst b))
  && (snd (fst a) =? snd (fst b))
  && Bool.eqb (snd a) (snd b).

Definition sameAttachment (a b : string * nat) : bool :=
  String.eqb (fst a) (fst b) && (snd a =? snd b).

(** [oTarget.addEventListener(type, fn, useCapture)]: a registration
    that is already there is not repeated. *)
Definition native_addEventListener (ty : string) (fn : nat) (capture : bool)
    (t : EventTarget) : EventTarget :=
  if existsb (sameListener (ty, fn, capture)) (listeners t) then t
  else set_listeners (listeners t ++ [(ty, fn, capture)]) t.

(** [oTarget.removeEventListener(type, fn, useCapture)] *)
Definition native_removeEventListener (ty : string) (fn : nat) (capture : bool)
    (t : EventTarget) : EventTarget :=
  set_listeners
    (filter (fun l => negb (sameListener (ty, fn, capture) l)) (listeners t)) t.

(** [oTarget.attachEvent(name, fn)]: every call adds a registration. *)
Definition native_attachEvent (name : string) (fn : nat) (t : EventTarget) : EventTarget :=
  set_attached (attached t ++ [(name, fn)]) t.

Fixpoint withoutFirst (a : string * nat) (l : list (string * nat)) : list (string * nat) :=
  match l with
  | [] => []
  | b :: rest => if sameAttachment a b then rest else b :: withoutFirst a rest
  end.

(** [oTarget.detachEvent(name, fn)]: one registration is taken away. *)
Definition native_detachEvent (name : string) (fn : nat) (t : EventTarget) : EventTarget :=
  set_attached (withoutFirst (name, fn) (attached t)) t.

(** [oTarget[name] = value] and [oTarget[name]] *)
Definition assignProperty (name : string) (value : option nat) (t : EventTarget)
    : EventTarget :=
  set_properties ((name, value) :: properties t) t.

Fixpoint lookup (name : string) (props : list (string * option nat)) : option nat :=
  match props with
  | [] => None
  | (k, v) :: rest => if String.eqb name k then v else lookup name rest
  end.

Definition property (name : string) (t : EventTarget) : option nat :=
  lookup name (properties t).

(** ["on" + sEventType] *)
Definition onName (sEventType : string) : string := String.append "on" sEventType.

(** [LoadChecker.EventUtil.addEventHandler] *)
Definition addEventHandler (oTarget : EventTarget) (sEventType : string)
    (fnHandler : nat) : EventTarget :=
  if hasAddEventListener oTarget then
    native_addEventListener sEventType fnHandler false oTarget
  else if hasAttachEvent oTarget then
    native_attachEvent (onName sEventType) fnHandler oTarget
  else
    assignProperty (onName sEventType) (Some fnHandler) oTarget.

(** [LoadChecker.EventUtil.removeEventHandler] *)
Definition removeEventHandler (oTarget : EventTarget) (sEventType : string)
    (fnHandler : nat) : EventTarget :=
  if hasRemoveEventListener oTarget then
    native_removeEventListener sEventType fnHandler false oTarget
  else if hasDetachEvent oTarget then
    native_detachEvent (onName sEventType) fnHandler oTarget
  else
    assignProperty (onName sEventType) None oTarget.

(** Whether the browser will call [fn] for events of type [ty] on the
    target. *)
Definition registered (ty : string) (fn : nat) (t : EventTarget) : bool :=
  existsb (sameListener (ty, fn, false)) (listeners t)
  || existsb (sameAttachment (onName ty, fn)) (attached t)
  || match property (onName ty) t with
     | Some f => f =? fn
     | None => false
     end.

(** A target whose removal methods match its registration methods, as
    on every browser: the standard pair, the old Internet Explorer pair,
    or neither. *)
Definition consistent (t : EventTarget) : bool :=
  Bool.eqb (hasAddEventListener t) (hasRemoveEventListener t)
  && Bool.eqb (hasAttachEvent t) (hasDetachEvent t).

End EventUtil.

(** ** More scenarios *)

(** Every content of the list has the element count [c]. *)
Definition sameCount (c : nat) (ds : list (list node)) : bool :=
  forallb (fun d => _countElements d =? c) ds.

(** The element count of the last content, [c] if there is none. *)
Definition lastCount (c : nat) (ds : list (list node)) : nat :=
  fold_left (fun _ d => _countElements d) ds c.

(** An input the observers do not report as a change when the last
    recorded element count is [c]: nothing happened, or the new content
    has [c] elements. *)
Definition calm (c : nat) (inputs : list (option (list node))) : bool :=
  forallb (fun i => match i with
                    | None => true
                    | Some d => _countElements d =? c
                    end) inputs.

(** The observer [f] has recorded the element count [c], and for the
    polling observer the page has that count now. *)
Definition Settled (f : Observer) (c : nat) (w : World) : Prop :=
  baseline f w = c /\
  (f = NodeCountChangeObserver -> _countElements (document (host w)) = c).





(** A first period in which nothing happens to a page that has elements:
    the polling observer, which starts from a recorded count of 0, reports
    a change nobody notified the mutation-based observer of. *)
Definition quietStartWithElements (doc : list node)
    (inputs : list (option (list node))) : bool :=
  match inputs with
  | None :: _ => negb (_countElements doc =? 0)
  | _ => false
  end.

(** What of a world decides which timers exist and which callback can be
    called. *)
Definition timersView (w : World) :=
  (_domMutationOrNodeCountIntervalCheck (self w), _user_callback (self w),
   activeIntervals (host w), invoked (host w)).

(** The interval timer [id] is somebody else's: it runs, the object does
    not hold its handle, and the callback [other] is neither stored nor
    has it been called. *)
Definition Orphaned (id other : nat) (w : World) : Prop :=
  existsb (fun t => fst t =? id) (activeIntervals (host w)) = true /\
  _domMutationOrNodeCountIntervalCheck (self w) <> Some id /\
  (forall cb, _user_callback (self w) = Some cb -> cb_id cb <> other) /\
  ~ In other (invoked (host w)).

(** * Reasoning about the script *)

(** The script is straight-line code over a record of counters, so its
    lemmas are proved by running it on a world whose fields are
    variables and splitting on every test it performs. *)

(** Evaluation that stops at the arithmetic tests, at the element count
    and at the events still to come. *)
Ltac js_eval :=
  cbv -[Nat.leb Nat.ltb Nat.eqb Nat.add Nat.sub _countElements step].

Ltac js_settle := cbv beta iota zeta.

(** One case split on a test of the script. *)
Ltac js_case :=
  match goal with
  | |- context [if ?b then _ else _] => is_var b; destruct b
  | |- context [match ?x with _ => _ end] => is_var x; destruct x
  | |- context [?a <=? ?b] => destruct (Nat.leb_spec a b)
  | |- context [?a <? ?b] => destruct (Nat.ltb_spec a b)
  | |- context [?a =? ?b] => destruct (Nat.eqb_spec a b)
  end.

Ltac js_cases := repeat (js_case; js_settle; try lia; try congruence).

(** Running the next event of the goal on a world that is known. *)
Ltac js_step :=
  match goal with
  | |- context [step ?c ?e (Build_World ?s ?h)] =>
      let t := eval cbv -[Nat.leb Nat.ltb Nat.eqb Nat.add Nat.sub _countElements]
                 in (step c e (Build_World s h)) in
      change (step c e (Build_World s h)) with t
  end.

Ltac js_run := js_eval; js_cases; repeat (js_step; js_cases).

Ltac js_goal :=
  repeat match goal with
         | |- _ /\ _ => split
         | |- Fired _ _ => constructor
         | |- Armed _ _ _ => constructor
         | |- Expired _ => constructor
         | |- exists _, _ => eexists
         | |- _ -> _ => intro
         end;
  js_eval; try reflexivity; try lia; try congruence.

Ltac explode w :=
  destruct w as [[? ? ? ? ? ? ? ? ? ? ?] [? ? ? ? ? ? ? ? ? ? ?]];
  cbn [self host
       _CHECK_INTERVAL_MS _READY_AFTER_N_STEADY_STATE_INTERVALS
       _EXIT_REGARDLESS_AFTER_MAX_INTERVALS _domMutationOrNodeCountIntervalCheck
       _user_callback _lastKnownNodeCountForMutationEvent
       _lastKnownNodeCountForNodeCountCheck _mutationsCount _intervalCount
       _steadyStateIntervals _usedInstance
       mutationObserverSupport setIntervalWorks callbackIdentifierBound document
       nextTimerId activeIntervals pendingTimeouts mutationSubscriptions invoked
       console uncaught] in *.

(** ** The element count *)

Lemma countElements_nil : _countElements [] = 0.
Proof. reflexivity. Qed.

Lemma countElements_cons ty kids rest :
  _countElements (Node ty kids :: rest) =
  (if ty =? ELEMENT_NODE then 1 + _countElements kids else 0) + _countElements rest.
Proof. reflexivity. Qed.

(** X1: the element count of a list of sibling subtrees is the sum of the
    counts of its parts. *)
Lemma countElements_app l1 l2 :
  _countElements (l1 ++ l2) = _countElements l1 + _countElements l2.
Proof.
  induction l1 as [|[ty kids] l1 IH].
  - reflexivity.
  - rewrite <- app_comm_cons, !countElements_cons, IH. lia.
Qed.

(** ** Runs *)

Lemma run_app copy es1 es2 w :
  run copy (es1 ++ es2) w = run copy es2 (run copy es1 w).
Proof. apply fold_left_app. Qed.

Lemma periods_cons i inputs : periods (i :: inputs) = period i ++ periods inputs.
Proof. reflexivity. Qed.

Lemma quiet_S n : quiet (S n) = period None ++ quiet n.
Proof. reflexivity. Qed.

Lemma busy_cons d ds : busy (d :: ds) = period (Some d) ++ busy ds.
Proof. reflexivity. Qed.

Lemma history_app copy as1 as2 w :
  history copy (as1 ++ as2) w = history copy as2 (history copy as1 w).
Proof. apply fold_left_app. Qed.

(** ** One period of a watch in progress *)

(** The observer sets the steady-state counter, then the driver either
    calls the callback, gives up, or re-arms itself. *)
Lemma period_spec copy f cb input w :
  Armed f cb w ->
  let w' := run copy (period input) w in
  let s' := steadyAfter copy f input w in
  setting w' = setting w /\
  document (host w') = match input with Some d => d | None => document (host w) end /\
  baseline f w' =
    (if detects f input w then _countElements (document (host w')) else baseline f w) /\
  _steadyStateIntervals (self w') = s' /\
  (_READY_AFTER_N_STEADY_STATE_INTERVALS (self w) <= s' ->
     Fired cb w' /\ _intervalCount (self w') = _intervalCount (self w)) /\
  (s' < _READY_AFTER_N_STEADY_STATE_INTERVALS (self w) ->
     _intervalCount (self w') = S (_intervalCount (self w)) /\
     if _EXIT_REGARDLESS_AFTER_MAX_INTERVALS (self w) <? S (_intervalCount (self w))
     then Expired w' else Armed f cb w').
Proof.
  intros [(id & Hh & Ha) Ht Hc Hi Hu Hs] w' s'. subst w' s'.
  explode w. destruct cb as [cid cthrows]. subst.
  destruct f; [destruct Hs|destruct copy]; subst; destruct input as [d|].
  all: unfold run, period, tick; cbn [fold_left].
  all: js_run.
  all: js_goal.
Qed.

(** ** What no part of the script touches *)

Lemma mutationObserverCallback_view w :
  outcomeView (dispatch mutationObserverCallback w) = outcomeView w.
Proof. explode w. unfold outcomeView. js_run; js_goal. Qed.

Lemma notifications_view n w :
  outcomeView (Nat.iter n (dispatch mutationObserverCallback) w) = outcomeView w.
Proof.
  induction n as [|n IH]; [reflexivity|].
  rewrite Nat.iter_succ, mutationObserverCallback_view. exact IH.
Qed.

(** Once every timer is gone, periods change nothing that can be seen. *)
Lemma dead_period copy input w :
  activeIntervals (host w) = [] ->
  pendingTimeouts (host w) = 0 ->
  outcomeView (run copy (period input) w) = outcomeView w.
Proof.
  intros Ha Ht. destruct input as [d|]; unfold period, tick, run; cbn [fold_left].
  - cbn [step].
    set (w1 := {| self := self w; host := set_document d (host w) |}).
    assert (Hv : outcomeView (Nat.iter (mutationSubscriptions (host w1))
                                (dispatch mutationObserverCallback) w1) = outcomeView w).
    { rewrite notifications_view. reflexivity. }
    set (w2 := Nat.iter _ _ w1) in *.
    unfold outcomeView in Hv. injection Hv as Hi Hu Ha' Ht' Hc.
    rewrite Ha, Ht in *. rewrite Ha'. cbn [fold_left]. rewrite Ht'.
    unfold outcomeView. rewrite Hi, Hu, Ha', Ht', Hc, Ha, Ht. reflexivity.
  - cbn [step]. rewrite Ha. cbn [fold_left]. rewrite Ht. reflexivity.
Qed.

Lemma dead_periods copy inputs w :
  activeIntervals (host w) = [] ->
  pendingTimeouts (host w) = 0 ->
  outcomeView (run copy (periods inputs) w) = outcomeView w.
Proof.
  revert w. induction inputs as [|i inputs IH]; intros w Ha Ht; [reflexivity|].
  rewrite periods_cons, run_app.
  pose proof (dead_period copy i w Ha Ht) as Hv.
  rewrite IH.
  - exact Hv.
  - unfold outcomeView in Hv. injection Hv as _ _ Ha' _ _. congruence.
  - unfold outcomeView in Hv. injection Hv as _ _ _ Ht' _. congruence.
Qed.

Lemma fired_stable copy cb inputs w :
  Fired cb w -> Fired cb (run copy (periods inputs) w).
Proof.
  intros [Hi Ha Ht Hn].
  pose proof (dead_periods copy inputs w Ha Ht) as Hv.
  unfold outcomeView in Hv. injection Hv as Hi' Hu' Ha' Ht' _.
  constructor; try congruence.
  unfold timedOut in *. congruence.
Qed.

Lemma expired_stable copy inputs w :
  Expired w -> Expired (run copy (periods inputs) w).
Proof.
  intros [Hu Hi Ha Ht].
  pose proof (dead_periods copy inputs w Ha Ht) as Hv.
  unfold outcomeView in Hv. injection Hv as Hi' Hu' Ha' Ht' Hc'.
  constructor; congruence.
Qed.

Lemma armed_not_finished f cb w :
  Armed f cb w -> loaded w = false /\ timedOut w = false.
Proof.
  intros [_ _ _ Hi Hu _]. unfold loaded, timedOut. rewrite Hi, Hu. split; reflexivity.
Qed.

Lemma fired_loaded cb w : Fired cb w -> loaded w = true.
Proof. intros [Hi _ _ _]. unfold loaded. rewrite Hi. reflexivity. Qed.

Lemma expired_timedOut w : Expired w -> loaded w = false /\ timedOut w = true.
Proof.
  intros [Hu Hi _ _]. unfold loaded, timedOut. rewrite Hi, Hu. split; reflexivity.
Qed.

Lemma verdictFrom_loaded copy e inputs w :
  loaded w = true -> verdictFrom copy e inputs w = LoadedAfter e.
Proof. intros H. destruct inputs; cbn; rewrite H; reflexivity. Qed.

Lemma verdictFrom_timedOut copy e inputs w :
  loaded w = false -> timedOut w = true ->
  verdictFrom copy e inputs w = TimedOutAfter e.
Proof. intros H1 H2. destruct inputs; cbn; rewrite H1, H2; reflexivity. Qed.

Lemma verdictFrom_step copy e i inputs w :
  loaded w = false -> timedOut w = false ->
  verdictFrom copy e (i :: inputs) w =
  verdictFrom copy (S e) inputs (run copy (period i) w).
Proof. intros H1 H2. cbn [verdictFrom]. rewrite H1, H2. reflexivity. Qed.

(** ** What stays as it is *)

Lemma Keeps_refl w : Keeps w w.
Proof. split; reflexivity. Qed.

Lemma Keeps_trans w1 w2 w3 : Keeps w1 w2 -> Keeps w2 w3 -> Keeps w1 w3.
Proof. intros [A B] [C D]. split; congruence. Qed.

Lemma Keeps_Later w w' : Keeps w w' -> Later w w'.
Proof.
  intros [A B]. unfold setting in A. injection A as _ _ _ Hu _.
  split; [congruence|lia].
Qed.

Lemma Later_refl w : Later w w.
Proof. split; [tauto|lia]. Qed.

Lemma Later_trans w1 w2 w3 : Later w1 w2 -> Later w2 w3 -> Later w1 w3.
Proof. intros [A B] [C D]. split; [tauto|lia]. Qed.

Lemma iter_Keeps (f : World -> World) :
  (forall w, Keeps w (f w)) -> forall n w, Keeps w (Nat.iter n f w).
Proof.
  intros Hf n w. induction n as [|n IH].
  - apply Keeps_refl.
  - rewrite Nat.iter_succ. eapply Keeps_trans; [exact IH|apply Hf].
Qed.

Lemma fold_left_Keeps {A} (f : World -> A -> World) :
  (forall w a, Keeps w (f w a)) -> forall l w, Keeps w (fold_left f l w).
Proof.
  intros Hf l. induction l as [|a l IH]; intros w.
  - apply Keeps_refl.
  - cbn [fold_left]. eapply Keeps_trans; [apply Hf|apply IH].
Qed.

Lemma mutationObserverCallback_Keeps w : Keeps w (dispatch mutationObserverCallback w).
Proof. explode w. unfold Keeps. js_run; js_goal. Qed.

Lemma observer_Keeps copy f w : Keeps w (dispatch (observer copy f) w).
Proof. explode w. unfold Keeps. destruct f, copy; js_run; js_goal. Qed.

Lemma driver_Keeps w : Keeps w (dispatch _executeCallbackAfterPageIsLoaded w).
Proof.
  explode w. unfold Keeps.
  destruct _user_callback0 as [[cid cthrows]|]; js_run; js_goal.
Qed.

Lemma step_Keeps copy e w : Keeps w (step copy e w).
Proof.
  destruct e as [d| |]; cbn [step].
  - eapply Keeps_trans; [|apply iter_Keeps, mutationObserverCallback_Keeps].
    split; reflexivity.
  - apply fold_left_Keeps. intros w0 t. apply observer_Keeps.
  - destruct (pendingTimeouts (host w)) as [|n]; [apply Keeps_refl|].
    eapply Keeps_trans; [|apply driver_Keeps]. split; reflexivity.
Qed.

Lemma run_Keeps copy es : forall w, Keeps w (run copy es w).
Proof. unfold run. apply fold_left_Keeps. intros w e. apply step_Keeps. Qed.

Lemma start_Later copy cb w : Later w (snd (start copy cb w)).
Proof.
  explode w. destruct cb as [cid cthrows]. unfold Later.
  destruct copy; js_run; js_goal.
Qed.

(** In the prototype copy every call of the entry point leaves the
    instance used, whatever else it does. *)
Lemma start_marks_used cb w :
  _usedInstance (self (snd (start Prototype cb w))) = true.
Proof.
  explode w. destruct cb as [cid cthrows].
  js_run; js_goal.
Qed.

Lemma act_Later copy a w : Later w (act copy a w).
Proof.
  destruct a as [cb|e]; cbn [act].
  - apply start_Later.
  - apply Keeps_Later, step_Keeps.
Qed.

Lemma history_Later copy activities : forall w, Later w (history copy activities w).
Proof.
  induction activities as [|a activities IH]; intros w.
  - apply Later_refl.
  - cbn [history fold_left]. eapply Later_trans; [apply act_Later|apply IH].
Qed.

(** ** The guards of the entry point *)

Lemma start_reused cb w :
  _usedInstance (self w) = true ->
  start Prototype cb w =
  (Throw ReuseError,
   {| self := self w; host := set_console (LogReuseError :: console (host w)) (host w) |}).
Proof. intros Hu. explode w. subst. reflexivity. Qed.

Lemma start_misconfigured copy cb w :
  (isPrototype copy = true -> _usedInstance (self w) = false) ->
  _EXIT_REGARDLESS_AFTER_MAX_INTERVALS (self w)
    <= _READY_AFTER_N_STEADY_STATE_INTERVALS (self w) ->
  start copy cb w =
  (Throw (ConfigurationError (_READY_AFTER_N_STEADY_STATE_INTERVALS (self w))
                             (_EXIT_REGARDLESS_AFTER_MAX_INTERVALS (self w))),
   {| self := if isPrototype copy then set_usedInstance true (self w) else self w;
      host := set_console
                (LogConfigurationError (_READY_AFTER_N_STEADY_STATE_INTERVALS (self w))
                                       (_EXIT_REGARDLESS_AFTER_MAX_INTERVALS (self w))
                 :: console (host w)) (host w) |}).
Proof.
  intros Hu Hc. explode w.
  destruct copy; cbn [isPrototype] in Hu; try rewrite (Hu eq_refl);
    js_run; reflexivity.
Qed.

(** ** The observers *)

(** In the copies that reset, both observers set the steady-state
    counter from their own test alone. *)
Lemma observer_counter copy f w :
  (f = NodeCountChangeObserver -> resetsSteadyStateOnNodeCountChange copy = true) ->
  _steadyStateIntervals (self (snd (observer copy f w))) =
  if changeDetected f w then 0 else S (_steadyStateIntervals (self w)).
Proof.
  intros Hr. explode w.
  destruct f; [|destruct copy; [| |specialize (Hr eq_refl); discriminate]].
  all: js_run; js_goal.
Qed.

(** The copy in [public/javascripts] differs on a change only. *)
Lemma public_observer_counter w :
  _steadyStateIntervals (self (snd (_nodeCountChangeObserver StaticPublic w))) =
  if changeDetected NodeCountChangeObserver w
  then _steadyStateIntervals (self w)
  else S (_steadyStateIntervals (self w)).
Proof. explode w. js_run; js_goal. Qed.

(** ** The driver *)

Lemma cleared_not_running id (l : list (nat * Observer)) :
  existsb (fun t => fst t =? id) (filter (fun t => negb (fst t =? id)) l) = false.
Proof.
  induction l as [|[i f] l IH]; [reflexivity|].
  cbn [filter fst]. destruct (Nat.eqb_spec i id) as [E|E]; cbn [negb].
  - exact IH.
  - cbn [existsb fst]. apply Nat.eqb_neq in E. rewrite E. exact IH.
Qed.


(** With a global [callback] on the page, an exception of the user
    callback ends in the console and nowhere else. *)
Lemma driver_swallows_callback_error w cb p :
  callbackIdentifierBound (host w) = true ->
  _user_callback (self w) = Some cb ->
  cb_throws cb = Some p ->
  _READY_AFTER_N_STEADY_STATE_INTERVALS (self w) <= _steadyStateIntervals (self w) ->
  exists w',
    _executeCallbackAfterPageIsLoaded w = (Normal tt, w') /\
    intervalRunning (_domMutationOrNodeCountIntervalCheck (self w)) w' = false /\
    console (host w') =
      LogCleaningUp :: LogCallbackFailed (UserError p)
        :: LogPageLoaded (_steadyStateIntervals (self w)) :: console (host w) /\
    uncaught (host w') = uncaught (host w) /\
    pendingTimeouts (host w') = pendingTimeouts (host w) /\
    invoked (host w') = cb_id cb :: invoked (host w).
Proof.
  intros Hb Hc Hp Hr. explode w. destruct cb as [cid cthrows]. cbn in Hp. subst.
  destruct _domMutationOrNodeCountIntervalCheck0 as [id|].
  all: js_run.
  all: eexists; split; [reflexivity|]; js_goal.
  exact (cleared_not_running _ _).
Qed.

(** ** Setup *)

Lemma setupMutationObserver_fails w :
  mutationSetupFails (mutationObserverSupport (host w)) = true ->
  exists ex,
    _setupMutationObserverIfPossible w =
    (Normal false,
     {| self := self w;
        host := set_console (LogCannotUseMutationObserver ex :: console (host w)) (host w) |}).
Proof.
  intros Hf. explode w.
  destruct mutationObserverSupport0; try discriminate; eexists; reflexivity.
Qed.


Lemma start_falls_back copy cb w :
  mutationSetupFails (mutationObserverSupport (host w)) = true ->
  (isPrototype copy = true -> _usedInstance (self w) = false) ->
  0 < _READY_AFTER_N_STEADY_STATE_INTERVALS (self w) ->
  _READY_AFTER_N_STEADY_STATE_INTERVALS (self w)
    < _EXIT_REGARDLESS_AFTER_MAX_INTERVALS (self w) ->
  setIntervalWorks (host w) = true ->
  exists w',
    start copy cb w = (Normal tt, w') /\
    activeIntervals (host w') =
      activeIntervals (host w) ++ [(nextTimerId (host w), NodeCountChangeObserver)] /\
    _domMutationOrNodeCountIntervalCheck (self w') = Some (nextTimerId (host w)) /\
    pendingTimeouts (host w') = S (pendingTimeouts (host w)) /\
    mutationSubscriptions (host w') = mutationSubscriptions (host w) /\
    invoked (host w') = invoked (host w).
Proof.
  intros Hf Hu Hr Hm Hw. explode w. subst.
  destruct mutationObserverSupport0; try discriminate.
  all: destruct copy; cbn [isPrototype] in Hu; try rewrite (Hu eq_refl); js_run.
  all: eexists; split; [reflexivity|]; js_goal.
Qed.

(** ** Starting a watch on a fresh page *)

Lemma start_pageLoad copy interval ready max support bound doc next cb :
  0 < ready -> ready < max ->
  exists w1,
    start copy cb (pageLoad interval ready max support true bound doc next)
      = (Normal tt, w1) /\
    Armed (chosenObserver support) cb w1 /\
    _steadyStateIntervals (self w1) = 0 /\
    _intervalCount (self w1) = 1 /\
    baseline (chosenObserver support) w1 = 0 /\
    document (host w1) = doc /\
    _READY_AFTER_N_STEADY_STATE_INTERVALS (self w1) = ready /\
    _EXIT_REGARDLESS_AFTER_MAX_INTERVALS (self w1) = max.
Proof.
  intros Hr Hm. unfold pageLoad, newLoadChecker, freshPage.
  destruct cb as [cid cthrows], copy, support; cbn [chosenObserver isPrototype].
  all: js_run.
  all: eexists; split; [reflexivity|]; js_goal.
Qed.

Lemma start_pageLoad_immediate copy interval max support bound doc next cb :
  0 < max ->
  exists c w1,
    start copy cb (pageLoad interval 0 max support true bound doc next) = (c, w1) /\
    Fired cb w1.
Proof.
  intros Hm. unfold pageLoad, newLoadChecker, freshPage.
  destruct cb as [cid cthrows], copy, support.
  all: js_run.
  all: do 2 eexists; (split; [reflexivity|]); js_goal.
Qed.

(** ** Periods without a change *)

Lemma quiet_run copy f cb n : forall w,
  Armed f cb w ->
  detects f None w = false ->
  _steadyStateIntervals (self w) < _READY_AFTER_N_STEADY_STATE_INTERVALS (self w) ->
  _intervalCount (self w)
    + (_READY_AFTER_N_STEADY_STATE_INTERVALS (self w) - _steadyStateIntervals (self w))
    <= S (_EXIT_REGARDLESS_AFTER_MAX_INTERVALS (self w)) ->
  let w' := run copy (quiet n) w in
  (n < _READY_AFTER_N_STEADY_STATE_INTERVALS (self w) - _steadyStateIntervals (self w) ->
     Armed f cb w') /\
  (_READY_AFTER_N_STEADY_STATE_INTERVALS (self w) - _steadyStateIntervals (self w) <= n ->
     Fired cb w').
Proof.
  induction n as [|n IH]; intros w Ha Hd Hs Hc; cbn zeta.
  - split; [intros _; exact Ha | lia].
  - rewrite quiet_S, run_app.
    destruct (period_spec copy f cb None w Ha) as (Hset & Hdoc & Hbase & Hst & Hfire & Hwait).
    unfold steadyAfter in *. rewrite Hd in *.
    set (w1 := run copy (period None) w) in *.
    unfold setting in Hset. injection Hset as _ Hr Hm _ _.
    destruct (Nat.le_gt_cases (_READY_AFTER_N_STEADY_STATE_INTERVALS (self w))
                              (S (_steadyStateIntervals (self w)))) as [Hle|Hgt].
    + destruct (Hfire Hle) as [Hf _].
      split; [lia|]. intros _. apply fired_stable. exact Hf.
    + destruct (Hwait Hgt) as [Hic Hnext].
      destruct (Nat.ltb_spec (_EXIT_REGARDLESS_AFTER_MAX_INTERVALS (self w))
                             (S (_intervalCount (self w)))) as [Hbad|Hok]; [lia|].
      assert (Hd1 : detects f None w1 = false).
      { destruct f; [reflexivity|]. cbn [detects baseline] in *.
        rewrite Hbase, Hdoc. exact Hd. }
      specialize (IH w1 Hnext Hd1). cbn zeta in IH.
      rewrite Hr, Hst, Hic in IH.
      destruct IH as [IH1 IH2]; [lia|lia|].
      split; intros Hn; [apply IH1|apply IH2]; lia.
Qed.

(** ** Periods that all bring a new content *)





(** ** Verdicts *)

(** In the copies whose polling observer resets the counter, the two
    observers take a watch through the same states once they have
    recorded the same count, unless the polling observer is about to
    find, in a period without notification, a page it has not counted
    yet. *)
Lemma verdict_same copy cb inputs :
  resetsSteadyStateOnNodeCountChange copy = true ->
  forall e wm wp,
  Armed DomMutationsCountObserver cb wm ->
  Armed NodeCountChangeObserver cb wp ->
  _READY_AFTER_N_STEADY_STATE_INTERVALS (self wm) = _READY_AFTER_N_STEADY_STATE_INTERVALS (self wp) ->
  _EXIT_REGARDLESS_AFTER_MAX_INTERVALS (self wm) = _EXIT_REGARDLESS_AFTER_MAX_INTERVALS (self wp) ->
  _steadyStateIntervals (self wm) = _steadyStateIntervals (self wp) ->
  _intervalCount (self wm) = _intervalCount (self wp) ->
  baseline DomMutationsCountObserver wm = baseline NodeCountChangeObserver wp ->
  document (host wm) = document (host wp) ->
  match inputs with
  | None :: _ =>
      _countElements (document (host wp)) = baseline NodeCountChangeObserver wp
  | _ => True
  end ->
  verdictFrom copy e inputs wm = verdictFrom copy e inputs wp.
Proof.
  intros Hreset. induction inputs as [|i inputs IH]; intros e wm wp Am Ap Hr Hm Hs Hc Hb Hd Hq.
  - destruct (armed_not_finished _ _ _ Am) as [Hl Ht].
    destruct (armed_not_finished _ _ _ Ap) as [Hl' Ht'].
    cbn. rewrite Hl, Ht, Hl', Ht'. reflexivity.
  - destruct (armed_not_finished _ _ _ Am) as [Hl Ht].
    destruct (armed_not_finished _ _ _ Ap) as [Hl' Ht'].
    rewrite (verdictFrom_step _ _ _ _ _ Hl Ht), (verdictFrom_step _ _ _ _ _ Hl' Ht').
    destruct (period_spec copy _ cb i wm Am) as (Sm & Dm & Bm & STm & Fm & Wm).
    destruct (period_spec copy _ cb i wp Ap) as (Sp & Dp & Bp & STp & Fp & Wp).
    assert (Hdet : detects DomMutationsCountObserver i wm
                   = detects NodeCountChangeObserver i wp).
    { destruct i as [d|]; cbn [detects baseline] in *.
      - rewrite Hb. reflexivity.
      - rewrite Hq, Nat.eqb_refl. reflexivity. }
    assert (Hst : steadyAfter copy DomMutationsCountObserver i wm
                  = steadyAfter copy NodeCountChangeObserver i wp).
    { unfold steadyAfter. rewrite Hdet, Hreset, Hs. reflexivity. }
    assert (Hsync : _countElements (document (host (run copy (period i) wp)))
                    = baseline NodeCountChangeObserver (run copy (period i) wp)).
    { rewrite Bp. destruct (detects NodeCountChangeObserver i wp) eqn:E; [reflexivity|].
      rewrite Dp. destruct i as [d|]; cbn [detects baseline] in *.
      - apply Bool.negb_false_iff, Nat.eqb_eq in E. symmetry. exact E.
      - exact Hq. }
    rewrite Hdet, Hst, Hr, Hm, Hc in *.
    set (wm1 := run copy (period i) wm) in *.
    set (wp1 := run copy (period i) wp) in *.
    set (s' := steadyAfter copy NodeCountChangeObserver i wp) in *.
    unfold setting in Sm, Sp.
    injection Sm as _ Hr1 Hm1 _ _. injection Sp as _ Hr2 Hm2 _ _.
    destruct (Nat.le_gt_cases (_READY_AFTER_N_STEADY_STATE_INTERVALS (self wp)) s') as [Hle|Hgt].
    + destruct (Fm Hle) as [F1 _]. destruct (Fp Hle) as [F2 _].
      pose proof (fired_loaded _ _ F1) as L1. pose proof (fired_loaded _ _ F2) as L2.
      rewrite !verdictFrom_loaded by assumption. reflexivity.
    + destruct (Wm Hgt) as [C1 N1]. destruct (Wp Hgt) as [C2 N2].
      destruct (Nat.ltb_spec (_EXIT_REGARDLESS_AFTER_MAX_INTERVALS (self wp))
                             (S (_intervalCount (self wp)))) as [Hbad|Hok].
      * destruct (expired_timedOut _ N1) as [L1 T1].
        destruct (expired_timedOut _ N2) as [L2 T2].
        rewrite !verdictFrom_timedOut by assumption. reflexivity.
      * assert (Hd1 : document (host wm1) = document (host wp1)).
        { rewrite Dm, Dp, Hd. reflexivity. }
        apply IH; try assumption; try congruence.
        -- rewrite Bm, Bp, Hd1.
           destruct (detects NodeCountChangeObserver i wp); [reflexivity|exact Hb].
        -- destruct inputs as [|[d'|] rest]; [exact I|exact I|exact Hsync].
Qed.

Lemma strategies_agree copy interval ready max support bound doc next cb inputs :
  resetsSteadyStateOnNodeCountChange copy = true ->
  mutationSetupFails support = true ->
  ready < max ->
  quietStartWithElements doc inputs = false ->
  watch copy cb inputs (pageLoad interval ready max MO_Available true bound doc next) =
  watch copy cb inputs (pageLoad interval ready max support true bound doc next).
Proof.
  intros Hreset Hfail Hc Hq. unfold watch.
  destruct ready as [|r].
  - destruct (start_pageLoad_immediate copy interval max MO_Available bound doc next cb)
      as (c1 & w1 & E1 & F1); [lia|].
    destruct (start_pageLoad_immediate copy interval max support bound doc next cb)
      as (c2 & w2 & E2 & F2); [lia|].
    rewrite E1, E2.
    pose proof (fired_loaded _ _ F1) as L1. pose proof (fired_loaded _ _ F2) as L2.
    rewrite L1, L2, !verdictFrom_loaded by assumption.
    destruct c1, c2; reflexivity.
  - destruct (start_pageLoad copy interval (S r) max MO_Available bound doc next cb)
      as (w1 & E1 & A1 & S1 & C1 & B1 & D1 & R1 & M1); [lia|lia|].
    destruct (start_pageLoad copy interval (S r) max support bound doc next cb)
      as (w2 & E2 & A2 & S2 & C2 & B2 & D2 & R2 & M2); [lia|lia|].
    rewrite E1, E2.
    assert (Hf : chosenObserver support = NodeCountChangeObserver)
      by (destruct support; [reflexivity|reflexivity|discriminate]).
    rewrite Hf in *. cbn [chosenObserver] in *.
    apply (verdict_same copy cb inputs Hreset); try assumption; try congruence.
    destruct inputs as [|[d|] rest]; [exact I|exact I|].
    cbn [quietStartWithElements] in Hq.
    apply Bool.negb_false_iff, Nat.eqb_eq in Hq. rewrite D2, B2. exact Hq.
Qed.

(** * The claims *)

(** ** C1 *)

(** C1, on the copy in [public/javascripts/load-checker.js]: after three
    periods of polling a page that stays as it is, the steady-state
    counter is 2; the page then gains a paragraph, the polling observer
    detects the change at its next run, and the counter is still 2
    instead of 0.  (The other two copies reset it, see
    [observer_counter].) *)
Theorem C1_public_copy_keeps_counter_on_change :
  let w := run StaticPublic
             (busy [emptyPage; emptyPage; emptyPage] ++ [DomMutates filledPage])
             (snd (start StaticPublic alertCallback
                     (pageLoad 500 5 20 MO_Unavailable true true emptyPage 1))) in
  changeDetected NodeCountChangeObserver w = true /\
  _steadyStateIntervals (self w) = 2 /\
  _steadyStateIntervals (self (snd (_nodeCountChangeObserver StaticPublic w))) = 2.
Proof. vm_compute. repeat split. Qed.

(** A consequence for whole watches on that copy, with the page contents
    of eight periods (unchanged, unchanged, a paragraph added, then
    unchanged): the mutation-based observer declares the page loaded
    after 8 periods, the polling observer after 7. *)
Example public_copy_strategies_disagree :
  let contents :=
    map Some [emptyPage; emptyPage; filledPage; filledPage;
              filledPage; filledPage; filledPage; filledPage] in
  watch StaticPublic alertCallback contents
    (pageLoad 500 5 20 MO_Available true true emptyPage 1) = LoadedAfter 8 /\
  watch StaticPublic alertCallback contents
    (pageLoad 500 5 20 MO_Unavailable true true emptyPage 1) = LoadedAfter 7.
Proof. vm_compute. split; reflexivity. Qed.

(** ** C2 *)

(** C2 as stated fails for the polling observer: on a page with elements
    that never changes, five periods (the steady-state threshold) have
    passed and the callback has not been called. *)
Lemma C2_polling_observer_is_one_period_late :
  ~ callbackFiresAfter Prototype alertCallback
      (pageLoad 500 5 20 MO_Unavailable true true emptyPage 1) 5.
Proof.
  intros H. destruct (H 5) as [_ H5]. destruct (H5 (le_n 5)) as [Hi _].
  vm_compute in Hi. discriminate Hi.
Qed.

(** C2, amended: on a page that never changes after the watch starts, a
    validly configured watch calls the callback exactly once and has
    cleared its interval timer in the same run of the driver; with the
    mutation-based observer this happens after exactly
    [_READY_AFTER_N_STEADY_STATE_INTERVALS] periods, with the polling
    observer one period later unless the page has no element (or the
    threshold is 0). *)
Theorem C2_callback_fires_when_due copy interval ready max support bound doc next cb :
  ready < max ->
  callbackFiresAfter copy cb
    (pageLoad interval ready max support true bound doc next)
    (dueAfter support ready doc).
Proof.
  intros Hc k. cbn zeta. unfold quiet.
  destruct ready as [|r].
  - destruct (start_pageLoad_immediate copy interval max support bound doc next cb)
      as (c & w1 & E & F); [lia|].
    rewrite E. cbn [snd].
    replace (dueAfter support 0 doc) with 0 by (destruct support; reflexivity).
    destruct (fired_stable copy cb (repeat None k) w1 F) as [Hi Ha _ _].
    split; [lia|]. intros _. split; assumption.
  - destruct (start_pageLoad copy interval (S r) max support bound doc next cb)
      as (w1 & E & A & S1 & C1 & B1 & D1 & R1 & M1); [lia|lia|].
    rewrite E. cbn [snd].
    set (f := chosenObserver support) in *.
    assert (Hdue : dueAfter support (S r) doc
                   = if detects f None w1 then S (S r) else S r).
    { subst f. destruct support; cbn [chosenObserver detects dueAfter baseline] in *;
        [ | |reflexivity]; rewrite B1, D1; cbn [Nat.eqb orb];
        destruct (_countElements doc); reflexivity. }
    rewrite Hdue. clear Hdue.
    destruct (detects f None w1) eqn:Hd.
    + destruct k as [|k].
      * change (run copy (periods (repeat None 0)) w1) with w1.
        split; [intros _; apply (armed_invoked _ _ _ A) | lia].
      * change (periods (repeat None (S k))) with (period None ++ quiet k).
        rewrite run_app.
        destruct (period_spec copy f cb None w1 A) as (Hset & Hdoc & Hbase & Hst & _ & Hwait).
        assert (Hs' : steadyAfter copy f None w1 = 0).
        { unfold steadyAfter. rewrite Hd, S1. destruct f; [|destruct copy]; reflexivity. }
        rewrite Hs', Hd in *.
        set (w2 := run copy (period None) w1) in *.
        unfold setting in Hset. injection Hset as _ Hr Hm _ _.
        destruct Hwait as [Hic A2]; [lia|].
        destruct (Nat.ltb_spec (_EXIT_REGARDLESS_AFTER_MAX_INTERVALS (self w1))
                               (S (_intervalCount (self w1)))) as [Hbad|Hok]; [lia|].
        assert (Hd2 : detects f None w2 = false).
        { destruct f; [reflexivity|]. cbn [detects baseline] in *.
          rewrite Hbase, Nat.eqb_refl. reflexivity. }
        destruct (quiet_run copy f cb k w2 A2 Hd2) as [Q1 Q2]; [lia|lia|].
        rewrite Hr, Hst, R1, Nat.sub_0_r in Q1, Q2.
        split.
        -- intros Hk. apply (armed_invoked f cb). apply Q1. lia.
        -- intros Hk. destruct Q2 as [Hi Ha _ _]; [lia|]. split; assumption.
    + destruct (quiet_run copy f cb k w1 A Hd) as [Q1 Q2]; [lia|lia|].
      rewrite S1, R1, Nat.sub_0_r in Q1, Q2.
      split.
      * intros Hk. apply (armed_invoked f cb). apply Q1. lia.
      * intros Hk. destruct Q2 as [Hi Ha _ _]; [lia|]. split; assumption.
Qed.

Lemma C2_callback_fires_when_due_witness :
  5 < 20 /\
  callbackFiresAfter Prototype alertCallback
    (pageLoad 500 5 20 MO_Unavailable true true emptyPage 1) 6.
Proof.
  split; [lia|].
  apply (C2_callback_fires_when_due Prototype 500 5 20 MO_Unavailable true emptyPage 1
           alertCallback).
  lia.
Defined.

(** ** C3 *)




(** ** C4 *)

(** C4, on a page without a global named [callback] (as when an anonymous
    function is passed): the watch has reached its steady state, the
    driver calls the throwing callback, and the driver itself completes
    by throwing a ReferenceError, which the event loop reports as
    uncaught.  The console receives the "page loaded" and the two
    "cleaning up" lines, not the callback's error.
    (With such a global the error is caught and printed, see
    [driver_swallows_callback_error].) *)
Theorem C4_callback_error_escapes_as_reference_error :
  let w := run Prototype (quiet 4 ++ [IntervalElapses])
             (snd (start Prototype failingCallback
                     (pageLoad 500 5 20 MO_Available true false emptyPage 1))) in
  let r := _executeCallbackAfterPageIsLoaded w in
  _steadyStateIntervals (self w) = 5 /\
  fst r = Throw (ReferenceError "callback") /\
  invoked (host (snd r)) = [cb_id failingCallback] /\
  activeIntervals (host (snd r)) = [] /\
  console (host (snd r)) =
    LogCleaningUpAfterException (ReferenceError "callback")
      :: LogCleaningUp :: LogPageLoaded 5 :: console (host w) /\
  uncaught (host (step Prototype TimeoutElapses w)) = [ReferenceError "callback"].
Proof. vm_compute. repeat split. Qed.

(** ** C5 *)



(** ** C6 *)

(** C6: on an instance that has not been used (the static copies have
    no such notion and need no such condition), with
    [_READY_AFTER_N_STEADY_STATE_INTERVALS >= _EXIT_REGARDLESS_AFTER_MAX_INTERVALS],
    the call of [callWhenReadyToGo] itself completes by throwing the
    configuration error; no interval and no timeout has been scheduled,
    no subscription made, no callback stored or called, and the counters
    are untouched: the browser differs by one console line only. *)
Theorem C6_invalid_configuration_rejected_before_setup copy cb w :
  (isPrototype copy = true -> _usedInstance (self w) = false) ->
  _EXIT_REGARDLESS_AFTER_MAX_INTERVALS (self w)
    <= _READY_AFTER_N_STEADY_STATE_INTERVALS (self w) ->
  let r := start copy cb w in
  fst r = Throw (ConfigurationError (_READY_AFTER_N_STEADY_STATE_INTERVALS (self w))
                                    (_EXIT_REGARDLESS_AFTER_MAX_INTERVALS (self w))) /\
  host (snd r) =
    set_console
      (LogConfigurationError (_READY_AFTER_N_STEADY_STATE_INTERVALS (self w))
                             (_EXIT_REGARDLESS_AFTER_MAX_INTERVALS (self w))
       :: console (host w)) (host w) /\
  activeIntervals (host (snd r)) = activeIntervals (host w) /\
  pendingTimeouts (host (snd r)) = pendingTimeouts (host w) /\
  nextTimerId (host (snd r)) = nextTimerId (host w) /\
  mutationSubscriptions (host (snd r)) = mutationSubscriptions (host w) /\
  _user_callback (self (snd r)) = _user_callback (self w) /\
  _intervalCount (self (snd r)) = _intervalCount (self w) /\
  _steadyStateIntervals (self (snd r)) = _steadyStateIntervals (self w).
Proof.
  intros Hu Hc r. subst r. rewrite (start_misconfigured copy cb w Hu Hc).
  cbn [fst snd host self].
  repeat split; destruct (isPrototype copy); reflexivity.
Qed.

Lemma C6_invalid_configuration_rejected_before_setup_witness :
  let w := pageLoad 500 20 20 MO_Available true true emptyPage 1 in
  ((isPrototype Prototype = true -> _usedInstance (self w) = false) /\ 20 <= 20) /\
  fst (start Prototype alertCallback w) = Throw (ConfigurationError 20 20) /\
  activeIntervals (host (snd (start Prototype alertCallback w))) = [] /\
  pendingTimeouts (host (snd (start Prototype alertCallback w))) = 0.
Proof.
  cbn zeta.
  split; [split; [reflexivity|lia]|].
  destruct (C6_invalid_configuration_rejected_before_setup Prototype alertCallback
              (pageLoad 500 20 20 MO_Available true true emptyPage 1))
    as (H1 & _ & H2 & H3 & _); [reflexivity|cbn; lia|].
  repeat split; assumption.
Defined.

(** ** C7 *)

(** C7: whatever the first call of [callWhenReadyToGo] on an instance did
    and whatever happened since (events, further calls), the next call
    completes by throwing the reuse error; the object is exactly as it
    was, so the new callback is not stored and can never be called, and
    the browser differs by the console line of the error only: no timer,
    no subscription, no callback invocation. *)
Theorem C7_second_call_is_rejected_untouched cb1 activities cb2 w :
  let w1 := history Prototype activities (snd (start Prototype cb1 w)) in
  start Prototype cb2 w1 =
  (Throw ReuseError,
   {| self := self w1;
      host := set_console (LogReuseError :: console (host w1)) (host w1) |}).
Proof.
  intros w1. apply start_reused.
  apply (history_Later Prototype activities (snd (start Prototype cb1 w))).
  apply start_marks_used.
Qed.

(** ** C8 *)

(** C8 as stated fails in every copy: when nothing at all happens to a
    page that has elements, the mutation-based observer declares it
    loaded after 5 periods and the polling observer after 6, because the
    latter compares its first count with the initial 0. *)
Lemma C8_polling_observer_counts_the_initial_page :
  ~ strategiesAgreeOn Prototype alertCallback (repeat None 8)
      500 5 20 MO_Unavailable true emptyPage 1.
Proof. unfold strategiesAgreeOn. vm_compute. discriminate. Qed.

(** C8, amended, for the copies whose polling observer resets the
    steady-state counter (the prototype and the revised static one): for
    every sequence of periods, in each of which the page is either left
    alone or gets a new content that a mutation notification announces,
    the mutation-based and the polling-based observer lead a validly
    configured watch to the same verdict after the same number of
    periods (loaded, timed out, or still watching when the sequence
    ends), unless the sequence starts with a period in which nothing
    happens to a page that has elements. *)
Theorem C8_strategies_agree_unless_quiet_start
    copy interval ready max fallback bound doc next cb inputs :
  resetsSteadyStateOnNodeCountChange copy = true ->
  mutationSetupFails fallback = true ->
  ready < max ->
  quietStartWithElements doc inputs = false ->
  strategiesAgreeOn copy cb inputs interval ready max fallback bound doc next.
Proof. intros Hreset Hfail Hc Hq. apply strategies_agree; assumption. Qed.

Lemma C8_strategies_agree_unless_quiet_start_witness :
  let inputs := [Some filledPage; None; None; Some textPage; Some emptyPage;
                 None; None; None; None; None] in
  (resetsSteadyStateOnNodeCountChange Prototype = true /\
   mutationSetupFails MO_Unavailable = true /\ 5 < 20 /\
   quietStartWithElements emptyPage inputs = false) /\
  strategiesAgreeOn Prototype alertCallback inputs 500 5 20 MO_Unavailable true emptyPage 1.
Proof.
  cbn zeta.
  split; [repeat split; lia|].
  apply (C8_strategies_agree_unless_quiet_start Prototype 500 5 20 MO_Unavailable
           true emptyPage 1 alertCallback);
    [reflexivity|reflexivity|lia|reflexivity].
Defined.

(** ** C9 *)

(** C9: when the mutation-based observer cannot be set up (no
    constructor, or [observe] throws), [_setupMutationObserverIfPossible]
    completes normally with [false]; and on an unused instance with a
    valid configuration, [callWhenReadyToGo] completes normally with
    [_nodeCountChangeObserver] registered as the interval function, its
    handle stored, the driver armed and no subscription made. *)
Theorem C9_mutation_setup_failure_falls_back_to_polling copy cb w :
  mutationSetupFails (mutationObserverSupport (host w)) = true ->
  (isPrototype copy = true -> _usedInstance (self w) = false) ->
  0 < _READY_AFTER_N_STEADY_STATE_INTERVALS (self w) ->
  _READY_AFTER_N_STEADY_STATE_INTERVALS (self w)
    < _EXIT_REGARDLESS_AFTER_MAX_INTERVALS (self w) ->
  setIntervalWorks (host w) = true ->
  fst (_setupMutationObserverIfPossible w) = Normal false /\
  exists w',
    start copy cb w = (Normal tt, w') /\
    activeIntervals (host w') =
      activeIntervals (host w) ++ [(nextTimerId (host w), NodeCountChangeObserver)] /\
    _domMutationOrNodeCountIntervalCheck (self w') = Some (nextTimerId (host w)) /\
    pendingTimeouts (host w') = S (pendingTimeouts (host w)) /\
    mutationSubscriptions (host w') = mutationSubscriptions (host w) /\
    invoked (host w') = invoked (host w).
Proof.
  intros Hf Hu Hr Hm Hw. split.
  - destruct (setupMutationObserver_fails w Hf) as [ex E]. rewrite E. reflexivity.
  - apply start_falls_back; assumption.
Qed.

Lemma C9_mutation_setup_failure_falls_back_to_polling_witness :
  let w := pageLoad 500 5 20 MO_ObserveThrows true true emptyPage 1 in
  (mutationSetupFails (mutationObserverSupport (host w)) = true /\
   (isPrototype Prototype = true -> _usedInstance (self w) = false) /\
   0 < 5 /\ 5 < 20 /\
   setIntervalWorks (host w) = true) /\
  fst (_setupMutationObserverIfPossible w) = Normal false /\
  exists w',
    start Prototype alertCallback w = (Normal tt, w') /\
    activeIntervals (host w') = [(1, NodeCountChangeObserver)].
Proof.
  cbn zeta.
  split; [repeat split; lia|].
  destruct (C9_mutation_setup_failure_falls_back_to_polling Prototype alertCallback
              (pageLoad 500 5 20 MO_ObserveThrows true true emptyPage 1))
    as (H1 & w' & H2 & H3 & _);
    [reflexivity|reflexivity|cbn; lia|cbn; lia|reflexivity|].
  split; [exact H1|]. exists w'. split; [exact H2|exact H3].
Defined.

(** ** C10 *)

(** C10: the first call on an instance with an invalid configuration
    throws the configuration error and leaves [_usedInstance] set, so the
    object is not as it was before the call; from then on, whatever
    happens in between, every call throws the reuse error. *)
Theorem C10_configuration_error_uses_up_the_instance cb w :
  _usedInstance (self w) = false ->
  _EXIT_REGARDLESS_AFTER_MAX_INTERVALS (self w)
    <= _READY_AFTER_N_STEADY_STATE_INTERVALS (self w) ->
  let r := start Prototype cb w in
  fst r = Throw (ConfigurationError (_READY_AFTER_N_STEADY_STATE_INTERVALS (self w))
                                    (_EXIT_REGARDLESS_AFTER_MAX_INTERVALS (self w))) /\
  _usedInstance (self (snd r)) = true /\
  self (snd r) <> self w /\
  forall activities cb',
    fst (start Prototype cb' (history Prototype activities (snd r))) = Throw ReuseError.
Proof.
  intros Hu Hc r. subst r.
  split; [rewrite (start_misconfigured Prototype cb w (fun _ => Hu) Hc); reflexivity|].
  split; [apply start_marks_used|].
  split.
  - intros Heq. pose proof (start_marks_used cb w) as H. rewrite Heq in H. congruence.
  - intros activities cb'. rewrite start_reused; [reflexivity|].
    apply (history_Later Prototype activities (snd (start Prototype cb w))).
    apply start_marks_used.
Qed.

Lemma C10_configuration_error_uses_up_the_instance_witness :
  let w := pageLoad 500 20 20 MO_Available true true emptyPage 1 in
  (_usedInstance (self w) = false /\ 20 <= 20) /\
  fst (start Prototype alertCallback w) = Throw (ConfigurationError 20 20) /\
  fst (start Prototype alertCallback (snd (start Prototype alertCallback w)))
    = Throw ReuseError.
Proof.
  cbn zeta.
  split; [split; [reflexivity|lia]|].
  destruct (C10_configuration_error_uses_up_the_instance alertCallback
              (pageLoad 500 20 20 MO_Available true true emptyPage 1))
    as (H1 & _ & _ & H2); [reflexivity|cbn; lia|].
  split; [exact H1|exact (H2 [] alertCallback)].
Defined.

(** * Further properties of the script *)

(** ** Counting elements *)

(** Induction over a tree and the lists of children in it. *)
Lemma node_nested_ind (P : node -> Prop) :
  (forall ty kids, Forall P kids -> P (Node ty kids)) ->
  forall n, P n.
Proof.
  intros step. fix IH 1. intros [ty kids]. apply step.
  induction kids as [|c rest IHrest]; constructor; [apply IH|exact IHrest].
Qed.

Lemma countElements_step c rest :
  _countElements (c :: rest) = countElementsAt c + _countElements rest.
Proof. reflexivity. Qed.

Lemma countElementsAt_node ty kids :
  countElementsAt (Node ty kids) =
  if ty =? ELEMENT_NODE then 1 + _countElements kids else 0.
Proof. reflexivity. Qed.

Lemma countNodes_step c rest :
  countNodes (c :: rest) = countNodesAt c + countNodes rest.
Proof. reflexivity. Qed.

Lemma countNodesAt_node ty kids : countNodesAt (Node ty kids) = 1 + countNodes kids.
Proof. reflexivity. Qed.

Lemma onlyElements_step c rest :
  onlyElements (c :: rest) = onlyElementsAt c && onlyElements rest.
Proof. reflexivity. Qed.

Lemma onlyElementsAt_node ty kids :
  onlyElementsAt (Node ty kids) = (ty =? ELEMENT_NODE) && onlyElements kids.
Proof. reflexivity. Qed.

Lemma prune_step c rest : prune (c :: rest) = pruneAt c ++ prune rest.
Proof. reflexivity. Qed.

Lemma pruneAt_node ty kids :
  pruneAt (Node ty kids) =
  if ty =? ELEMENT_NODE then [Node ty (prune kids)] else [].
Proof. reflexivity. Qed.

Lemma countNodes_app l1 l2 : countNodes (l1 ++ l2) = countNodes l1 + countNodes l2.
Proof.
  induction l1 as [|c l1 IH]; [reflexivity|].
  rewrite <- app_comm_cons, !countNodes_step, IH. lia.
Qed.

Lemma onlyElements_app l1 l2 :
  onlyElements (l1 ++ l2) = onlyElements l1 && onlyElements l2.
Proof.
  induction l1 as [|c l1 IH]; [reflexivity|].
  rewrite <- app_comm_cons, !onlyElements_step, IH. apply andb_assoc.
Qed.

Lemma pruneAt_spec c :
  countElementsAt c = countNodes (pruneAt c) /\ onlyElements (pruneAt c) = true.
Proof.
  induction c as [ty kids IH] using node_nested_ind.
  assert (H : _countElements kids = countNodes (prune kids)
              /\ onlyElements (prune kids) = true).
  { induction IH as [|c rest [Hc1 Hc2] _ [IH1 IH2]]; [split; reflexivity|].
    rewrite countElements_step, prune_step, countNodes_app, onlyElements_app,
      Hc1, Hc2, IH1, IH2. split; reflexivity. }
  destruct H as [H1 H2].
  rewrite countElementsAt_node, pruneAt_node.
  destruct (ty =? ELEMENT_NODE) eqn:E; [|split; reflexivity].
  rewrite countNodes_step, onlyElements_step, countNodesAt_node, onlyElementsAt_node,
    E, H1, H2.
  split; [cbn; lia|reflexivity].
Qed.

(** X2: [_countElements] returns the number of nodes of the tree that is
    left when every non-element node is cut out together with everything
    below it; elements below a non-element node are not counted. *)
Theorem countElements_counts_pruned_tree children :
  _countElements children = countNodes (prune children) /\
  onlyElements (prune children) = true.
Proof.
  induction children as [|c rest [IH1 IH2]]; [split; reflexivity|].
  destruct (pruneAt_spec c) as [Hc1 Hc2].
  rewrite countElements_step, prune_step, countNodes_app, onlyElements_app,
    Hc1, Hc2, IH1, IH2.
  split; reflexivity.
Qed.

Lemma countElementsAt_bound c :
  countElementsAt c <= countNodesAt c /\
  (onlyElementsAt c = true -> countElementsAt c = countNodesAt c).
Proof.
  induction c as [ty kids IH] using node_nested_ind.
  assert (H : _countElements kids <= countNodes kids
              /\ (onlyElements kids = true -> _countElements kids = countNodes kids)).
  { induction IH as [|c rest [Hc1 Hc2] _ [IH1 IH2]]; [split; reflexivity|].
    rewrite countElements_step, countNodes_step, onlyElements_step.
    split; [lia|]. intros H. apply andb_prop in H. destruct H as [Ha Hb].
    rewrite (Hc2 Ha), (IH2 Hb). reflexivity. }
  destruct H as [H1 H2].
  rewrite countElementsAt_node, countNodesAt_node, onlyElementsAt_node.
  destruct (ty =? ELEMENT_NODE); cbn [andb]; split; try lia.
  all: intros H; first [discriminate H | rewrite (H2 H); reflexivity].
Qed.

(** X3: the element count never exceeds the number of nodes of the tree,
    and equals it when the tree consists of elements only. *)
Theorem countElements_bound children :
  _countElements children <= countNodes children /\
  (onlyElements children = true -> _countElements children = countNodes children).
Proof.
  induction children as [|c rest [IH1 IH2]]; [split; reflexivity|].
  destruct (countElementsAt_bound c) as [Hc1 Hc2].
  rewrite countElements_step, countNodes_step, onlyElements_step.
  split; [lia|]. intros H. apply andb_prop in H. destruct H as [Ha Hb].
  rewrite (Hc2 Ha), (IH2 Hb). reflexivity.
Qed.

(** ** EventUtil *)

Lemma sameListener_refl a : EventUtil.sameListener a a = true.
Proof.
  unfold EventUtil.sameListener.
  rewrite String.eqb_refl, Nat.eqb_refl, Bool.eqb_reflx. reflexivity.
Qed.

Lemma sameAttachment_refl a : EventUtil.sameAttachment a a = true.
Proof.
  unfold EventUtil.sameAttachment. rewrite String.eqb_refl, Nat.eqb_refl. reflexivity.
Qed.

Lemma onName_inj a b : EventUtil.onName a = EventUtil.onName b -> a = b.
Proof. unfold EventUtil.onName. cbn. intros H. injection H as H. exact H. Qed.

Lemma existsb_filtered {A} (p : A -> bool) l :
  existsb p (filter (fun x => negb (p x)) l) = false.
Proof.
  induction l as [|x l IH]; [reflexivity|].
  cbn [filter]. destruct (p x) eqn:E; cbn [negb]; [exact IH|].
  cbn [existsb]. rewrite E, IH. reflexivity.
Qed.

Lemma withoutFirst_appended a l :
  existsb (EventUtil.sameAttachment a) l = false ->
  EventUtil.withoutFirst a (l ++ [a]) = l.
Proof.
  induction l as [|b l IH]; intros H.
  - cbn. rewrite sameAttachment_refl. reflexivity.
  - cbn [existsb] in H. apply orb_false_elim in H. destruct H as [Hb Hl].
    cbn [app EventUtil.withoutFirst]. rewrite Hb, (IH Hl). reflexivity.
Qed.

(** X4: on a target whose removal methods match its registration
    methods, a handler that was not registered is registered by
    [addEventHandler] and no longer registered after the matching
    [removeEventHandler], whichever of the three mechanisms the target
    offers. *)
Theorem EventUtil_add_then_remove t ty fn :
  EventUtil.consistent t = true ->
  EventUtil.registered ty fn t = false ->
  EventUtil.registered ty fn (EventUtil.addEventHandler t ty fn) = true /\
  EventUtil.registered ty fn
    (EventUtil.removeEventHandler (EventUtil.addEventHandler t ty fn) ty fn) = false.
Proof.
  intros Hc Hr.
  destruct t as [hasAdd hasRemove hasAttach hasDetach ls atts props].
  unfold EventUtil.consistent in Hc. cbn in Hc.
  apply andb_prop in Hc. destruct Hc as [H1 H2].
  apply Bool.eqb_prop in H1. apply Bool.eqb_prop in H2. subst hasRemove hasDetach.
  unfold EventUtil.registered, EventUtil.property in *. cbn in Hr.
  apply orb_false_elim in Hr. destruct Hr as [Hr Hp].
  apply orb_false_elim in Hr. destruct Hr as [Hl Ha].
  unfold EventUtil.addEventHandler, EventUtil.removeEventHandler.
  destruct hasAdd; [|destruct hasAttach]; cbn.
  - unfold EventUtil.native_addEventListener. cbn. rewrite Hl. cbn.
    rewrite existsb_app, Hl, Ha. cbn. rewrite sameListener_refl. cbn.
    rewrite (existsb_filtered (EventUtil.sameListener (ty, fn, false))), Hp.
    split; reflexivity.
  - rewrite existsb_app, Hl, Ha. cbn. rewrite sameAttachment_refl. cbn.
    rewrite (withoutFirst_appended _ _ Ha), Ha, Hp. split; reflexivity.
  - rewrite Hl, Ha, String.eqb_refl, Nat.eqb_refl. split; reflexivity.
Qed.

Lemma EventUtil_add_then_remove_witness :
  let t := {| EventUtil.hasAddEventListener := false;
              EventUtil.hasRemoveEventListener := false;
              EventUtil.hasAttachEvent := true;
              EventUtil.hasDetachEvent := true;
              EventUtil.listeners := [];
              EventUtil.attached := [(EventUtil.onName "load", 7)];
              EventUtil.properties := [] |} in
  (EventUtil.consistent t = true /\ EventUtil.registered "load" 8 t = false) /\
  EventUtil.registered "load" 8 (EventUtil.addEventHandler t "load" 8) = true.
Proof.
  cbn zeta. split; [split; reflexivity|].
  apply EventUtil_add_then_remove; reflexivity.
Defined.

(** X5: on a target without listener methods the handler lives in the
    single property ["on" + type]: a second [addEventHandler] for the
    type replaces the first handler, [removeEventHandler] empties the
    property whatever function it is given, and the properties of other
    event types are not touched by either. *)
Theorem EventUtil_property_holds_one_handler t ty :
  EventUtil.hasAddEventListener t = false ->
  EventUtil.hasAttachEvent t = false ->
  EventUtil.hasRemoveEventListener t = false ->
  EventUtil.hasDetachEvent t = false ->
  (forall fn1 fn2,
     EventUtil.property (EventUtil.onName ty)
       (EventUtil.addEventHandler (EventUtil.addEventHandler t ty fn1) ty fn2)
     = Some fn2) /\
  (forall fn fn',
     EventUtil.property (EventUtil.onName ty)
       (EventUtil.removeEventHandler (EventUtil.addEventHandler t ty fn) ty fn')
     = None) /\
  (forall ty' fn, ty' <> ty ->
     EventUtil.property (EventUtil.onName ty') (EventUtil.addEventHandler t ty fn)
     = EventUtil.property (EventUtil.onName ty') t /\
     EventUtil.property (EventUtil.onName ty') (EventUtil.removeEventHandler t ty fn)
     = EventUtil.property (EventUtil.onName ty') t).
Proof.
  intros H1 H2 H3 H4.
  destruct t as [hasAdd hasRemove hasAttach hasDetach ls atts props].
  cbn in H1, H2, H3, H4. subst.
  unfold EventUtil.addEventHandler, EventUtil.removeEventHandler, EventUtil.property.
  cbn [EventUtil.hasAddEventListener EventUtil.hasAttachEvent
       EventUtil.hasRemoveEventListener EventUtil.hasDetachEvent
       EventUtil.assignProperty EventUtil.set_properties EventUtil.properties
       EventUtil.lookup].
  repeat split; intros; rewrite ?String.eqb_refl; try reflexivity.
  all: destruct (String.eqb_spec (EventUtil.onName ty') (EventUtil.onName ty)) as [E|E];
    [apply onName_inj in E; contradiction|reflexivity].
Qed.

Lemma EventUtil_property_holds_one_handler_witness :
  let t := {| EventUtil.hasAddEventListener := false;
              EventUtil.hasRemoveEventListener := false;
              EventUtil.hasAttachEvent := false;
              EventUtil.hasDetachEvent := false;
              EventUtil.listeners := [];
              EventUtil.attached := [];
              EventUtil.properties := [] |} in
  (EventUtil.hasAddEventListener t = false /\ EventUtil.hasAttachEvent t = false /\
   EventUtil.hasRemoveEventListener t = false /\ EventUtil.hasDetachEvent t = false) /\
  EventUtil.property (EventUtil.onName "load")
    (EventUtil.removeEventHandler (EventUtil.addEventHandler t "load" 7) "load" 8)
  = None.
Proof.
  cbn zeta. split; [repeat split; reflexivity|].
  apply EventUtil_property_holds_one_handler; reflexivity.
Defined.

(** ** The entry point on any page *)

(** X6: a call of [callWhenReadyToGo] that passes its guards (positive
    threshold below the budget, working [setInterval], and in the
    prototype copy an unused instance) returns normally, whatever else
    is going on on the page: it adds exactly one interval timer, whose
    handle it stores, and one armed run of the driver, stores the
    callback without calling it, and leaves the counters at 0 with the
    first check already counted.  Timers that existed before are kept. *)
Theorem start_arms_one_watch copy cb w :
  (isPrototype copy = true -> _usedInstance (self w) = false) ->
  0 < _READY_AFTER_N_STEADY_STATE_INTERVALS (self w) ->
  _READY_AFTER_N_STEADY_STATE_INTERVALS (self w)
    < _EXIT_REGARDLESS_AFTER_MAX_INTERVALS (self w) ->
  setIntervalWorks (host w) = true ->
  exists w',
    start copy cb w = (Normal tt, w') /\
    activeIntervals (host w') =
      activeIntervals (host w)
        ++ [(nextTimerId (host w), chosenObserver (mutationObserverSupport (host w)))] /\
    _domMutationOrNodeCountIntervalCheck (self w') = Some (nextTimerId (host w)) /\
    nextTimerId (host w') = S (nextTimerId (host w)) /\
    pendingTimeouts (host w') = S (pendingTimeouts (host w)) /\
    _user_callback (self w') = Some cb /\
    invoked (host w') = invoked (host w) /\
    uncaught (host w') = uncaught (host w) /\
    _steadyStateIntervals (self w') = 0 /\
    _mutationsCount (self w') = 0 /\
    _intervalCount (self w') = 1 /\
    _READY_AFTER_N_STEADY_STATE_INTERVALS (self w')
      = _READY_AFTER_N_STEADY_STATE_INTERVALS (self w) /\
    _EXIT_REGARDLESS_AFTER_MAX_INTERVALS (self w')
      = _EXIT_REGARDLESS_AFTER_MAX_INTERVALS (self w) /\
    setIntervalWorks (host w') = true /\
    mutationObserverSupport (host w') = mutationObserverSupport (host w).
Proof.
  intros Hu Hr Hm Hw. explode w. subst.
  destruct mutationObserverSupport0.
  all: destruct copy; cbn [isPrototype] in Hu; try rewrite (Hu eq_refl); js_run.
  all: eexists; split; [reflexivity|]; js_goal.
Qed.

Lemma start_arms_one_watch_witness :
  let w := pageLoad 500 5 20 MO_Available true true emptyPage 1 in
  ((isPrototype Prototype = true -> _usedInstance (self w) = false) /\
   0 < 5 /\ 5 < 20 /\ setIntervalWorks (host w) = true) /\
  exists w', start Prototype alertCallback w = (Normal tt, w') /\
             activeIntervals (host w') = [(1, DomMutationsCountObserver)].
Proof.
  cbn zeta. split; [repeat split; lia|].
  destruct (start_arms_one_watch Prototype alertCallback
              (pageLoad 500 5 20 MO_Available true true emptyPage 1))
    as (w' & H1 & H2 & _); [reflexivity|cbn; lia|cbn; lia|reflexivity|].
  exists w'. split; [exact H1|exact H2].
Defined.

(** X7: when [setInterval] throws, [callWhenReadyToGo] throws the setup
    error that wraps it.  No timer and no run of the driver exists, the
    callback is neither stored nor called; a prototype instance is used
    up all the same, and a mutation subscription made just before is
    left registered. *)
Theorem start_setup_failure copy cb w :
  (isPrototype copy = true -> _usedInstance (self w) = false) ->
  _READY_AFTER_N_STEADY_STATE_INTERVALS (self w)
    < _EXIT_REGARDLESS_AFTER_MAX_INTERVALS (self w) ->
  setIntervalWorks (host w) = false ->
  exists w',
    start copy cb w = (Throw (SetupError HostError), w') /\
    activeIntervals (host w') = activeIntervals (host w) /\
    pendingTimeouts (host w') = pendingTimeouts (host w) /\
    _domMutationOrNodeCountIntervalCheck (self w')
      = _domMutationOrNodeCountIntervalCheck (self w) /\
    _user_callback (self w') = _user_callback (self w) /\
    invoked (host w') = invoked (host w) /\
    _usedInstance (self w') = (if isPrototype copy then true else _usedInstance (self w)) /\
    mutationSubscriptions (host w') =
      (if mutationSetupFails (mutationObserverSupport (host w))
       then mutationSubscriptions (host w)
       else S (mutationSubscriptions (host w))).
Proof.
  intros Hu Hm Hw. explode w. subst.
  destruct mutationObserverSupport0.
  all: destruct copy; cbn [isPrototype] in Hu; try rewrite (Hu eq_refl); js_run.
  all: eexists; split; [reflexivity|]; js_goal.
Qed.

Lemma start_setup_failure_witness :
  let w := pageLoad 500 5 20 MO_Available false true emptyPage 1 in
  ((isPrototype Prototype = true -> _usedInstance (self w) = false) /\
   5 < 20 /\ setIntervalWorks (host w) = false) /\
  exists w', start Prototype alertCallback w = (Throw (SetupError HostError), w') /\
             activeIntervals (host w') = [].
Proof.
  cbn zeta. split; [repeat split; lia|].
  destruct (start_setup_failure Prototype alertCallback
              (pageLoad 500 5 20 MO_Available false true emptyPage 1))
    as (w' & H1 & H2 & _); [reflexivity|cbn; lia|reflexivity|].
  exists w'. split; [exact H1|exact H2].
Defined.

(** X8: with the threshold 0 (which the validation accepts whenever the
    budget is positive) the callback is called inside
    [callWhenReadyToGo], before it returns: afterwards the callback has
    been called once, the interval timer set up a moment earlier is
    cleared and no run of the driver is armed.  The call returns
    normally if the page has a global named [callback]; otherwise it
    throws the ReferenceError of the driver's console line. *)
Theorem threshold_zero_calls_back_at_once
    copy interval max support bound doc next cb :
  0 < max ->
  let r := start copy cb (pageLoad interval 0 max support true bound doc next) in
  fst r = (if bound then Normal tt else Throw (ReferenceError "callback")) /\
  Fired cb (snd r) /\
  uncaught (host (snd r)) = [].
Proof.
  intros Hm. unfold pageLoad, newLoadChecker, freshPage.
  destruct cb as [cid cthrows], copy, support.
  all: js_run.
  all: js_goal.
Qed.

Lemma threshold_zero_calls_back_at_once_witness :
  0 < 20 /\
  Fired failingCallback
    (snd (start Prototype failingCallback
            (pageLoad 500 0 20 MO_Available true true emptyPage 1))).
Proof.
  split; [lia|].
  apply (threshold_zero_calls_back_at_once Prototype 500 20 MO_Available true
           emptyPage 1 failingCallback).
  lia.
Defined.

(** ** Cleaning up *)

Lemma filter_filter {A} (p : A -> bool) l : filter p (filter p l) = filter p l.
Proof.
  induction l as [|x l IH]; [reflexivity|].
  cbn [filter]. destruct (p x) eqn:E; [|exact IH].
  cbn [filter]. rewrite E, IH. reflexivity.
Qed.

Lemma cleanup_spec w :
  _cleanupLoadChecker w =
  (Normal tt,
   match _domMutationOrNodeCountIntervalCheck (self w) with
   | None => w
   | Some id =>
       {| self := self w;
          host := set_timers (nextTimerId (host w))
                    (filter (fun t => negb (fst t =? id)) (activeIntervals (host w)))
                    (host w) |}
   end).
Proof. explode w. destruct _domMutationOrNodeCountIntervalCheck0; reflexivity. Qed.

(** X9: [_cleanupLoadChecker] never throws, clears the interval timer of
    the object's handle and no other timer of the page, keeps the (now
    stale) handle, and doing it again changes nothing. *)
Theorem cleanup_clears_own_timer_only w :
  let w' := snd (_cleanupLoadChecker w) in
  fst (_cleanupLoadChecker w) = Normal tt /\
  intervalRunning (_domMutationOrNodeCountIntervalCheck (self w)) w' = false /\
  (forall id f,
     In (id, f) (activeIntervals (host w')) <->
     In (id, f) (activeIntervals (host w))
     /\ _domMutationOrNodeCountIntervalCheck (self w) <> Some id) /\
  self w' = self w /\
  snd (_cleanupLoadChecker w') = w'.
Proof.
  cbn zeta. rewrite (cleanup_spec w). cbn [fst snd].
  destruct (_domMutationOrNodeCountIntervalCheck (self w)) as [id0|] eqn:E.
  - rewrite cleanup_spec. cbn [fst snd self host].
    rewrite E. cbn [intervalRunning host activeIntervals set_timers nextTimerId].
    split; [reflexivity|]. split; [apply cleared_not_running|].
    split; [|split; [reflexivity|]].
    + intros id f. rewrite filter_In. cbn [fst].
      split; intros [H1 H2]; (split; [exact H1|]).
      * intros Heq. injection Heq as Heq. subst id0.
        rewrite Nat.eqb_refl in H2. discriminate H2.
      * destruct (Nat.eqb_spec id id0) as [Heq|Hne]; [subst; contradiction H2; reflexivity|reflexivity].
    + rewrite filter_filter. reflexivity.
  - rewrite cleanup_spec, E. cbn [intervalRunning].
    split; [reflexivity|]. split; [reflexivity|].
    split; [|split; reflexivity].
    intros id f. split; [intros H; split; [exact H|discriminate]|intros [H _]; exact H].
Qed.

(** ** Watches on any sequence of periods *)

(** One period of a watch in progress ends in one of three ways. *)
Lemma period_cases copy f cb input w :
  Armed f cb w ->
  _intervalCount (self w) <= _EXIT_REGARDLESS_AFTER_MAX_INTERVALS (self w) ->
  let w' := run copy (period input) w in
  _READY_AFTER_N_STEADY_STATE_INTERVALS (self w')
    = _READY_AFTER_N_STEADY_STATE_INTERVALS (self w) /\
  _EXIT_REGARDLESS_AFTER_MAX_INTERVALS (self w')
    = _EXIT_REGARDLESS_AFTER_MAX_INTERVALS (self w) /\
  (Fired cb w' \/
   (Expired w' /\ _intervalCount (self w') = S (_EXIT_REGARDLESS_AFTER_MAX_INTERVALS (self w))) \/
   (Armed f cb w' /\ _intervalCount (self w') = S (_intervalCount (self w))
    /\ _intervalCount (self w') <= _EXIT_REGARDLESS_AFTER_MAX_INTERVALS (self w))).
Proof.
  intros A Hc w'. subst w'.
  destruct (period_spec copy f cb input w A) as (Hset & _ & _ & _ & Hfire & Hwait).
  unfold setting in Hset. injection Hset as _ Hr Hm _ _.
  split; [exact Hr|]. split; [exact Hm|].
  destruct (Nat.le_gt_cases (_READY_AFTER_N_STEADY_STATE_INTERVALS (self w))
                            (steadyAfter copy f input w)) as [Hle|Hgt].
  - left. apply Hfire. exact Hle.
  - destruct (Hwait Hgt) as [Hic Hnext].
    destruct (Nat.ltb_spec (_EXIT_REGARDLESS_AFTER_MAX_INTERVALS (self w))
                           (S (_intervalCount (self w)))) as [Hbad|Hok].
    + right. left. split; [exact Hnext|]. lia.
    + right. right. split; [exact Hnext|]. lia.
Qed.

Lemma watch_progress copy f cb inputs : forall w,
  Armed f cb w ->
  _intervalCount (self w) <= _EXIT_REGARDLESS_AFTER_MAX_INTERVALS (self w) ->
  let w' := run copy (periods inputs) w in
  Fired cb w' \/
  (Expired w' /\ _intervalCount (self w') = S (_EXIT_REGARDLESS_AFTER_MAX_INTERVALS (self w))) \/
  (Armed f cb w'
   /\ _intervalCount (self w') = _intervalCount (self w) + List.length inputs
   /\ _intervalCount (self w') <= _EXIT_REGARDLESS_AFTER_MAX_INTERVALS (self w)).
Proof.
  induction inputs as [|i inputs IH]; intros w A Hc; cbn zeta.
  - right. right. change (run copy (periods []) w) with w. cbn [List.length].
    split; [exact A|]. lia.
  - rewrite periods_cons, run_app.
    destruct (period_cases copy f cb i w A Hc) as (Hr & Hm & [F|[[X Hx]|(A1 & Hi & Hle)]]).
    + left. apply fired_stable. exact F.
    + right. left. split; [apply expired_stable; exact X|].
      pose proof (dead_periods copy inputs _ (expired_intervals _ X) (expired_timeouts _ X)) as Hv.
      unfold outcomeView in Hv. injection Hv as _ _ _ _ Hcount. congruence.
    + specialize (IH _ A1). cbn zeta in IH. rewrite Hm in IH.
      destruct IH as [F|[[X Hx]|(A2 & Hi2 & Hle2)]]; [lia|auto|auto|].
      right. right. split; [exact A2|]. cbn [List.length]. lia.
Qed.

(** ** Periods the observers do not see *)

Lemma calm_undetected f c i w :
  Settled f c w ->
  (match i with None => true | Some d => _countElements d =? c end) = true ->
  detects f i w = false.
Proof.
  intros [Hb Hd] Hi. destruct f; cbn [detects baseline] in *.
  - destruct i as [d|]; [|reflexivity].
    apply Nat.eqb_eq in Hi. rewrite Hb, Hi, Nat.eqb_refl. reflexivity.
  - destruct i as [d|].
    + apply Nat.eqb_eq in Hi. rewrite Hb, Hi, Nat.eqb_refl. reflexivity.
    + rewrite Hb, (Hd eq_refl), Nat.eqb_refl. reflexivity.
Qed.

Lemma calm_run copy f cb c inputs : forall w,
  Armed f cb w ->
  Settled f c w ->
  calm c inputs = true ->
  _steadyStateIntervals (self w) < _READY_AFTER_N_STEADY_STATE_INTERVALS (self w) ->
  _intervalCount (self w) <= _EXIT_REGARDLESS_AFTER_MAX_INTERVALS (self w) ->
  let need := _READY_AFTER_N_STEADY_STATE_INTERVALS (self w) - _steadyStateIntervals (self w) in
  let budget := S (_EXIT_REGARDLESS_AFTER_MAX_INTERVALS (self w)) - _intervalCount (self w) in
  let w' := run copy (periods inputs) w in
  (List.length inputs < need -> List.length inputs < budget -> Armed f cb w') /\
  (need <= budget -> need <= List.length inputs -> Fired cb w') /\
  (budget < need -> budget <= List.length inputs ->
     Expired w' /\ _intervalCount (self w') = S (_EXIT_REGARDLESS_AFTER_MAX_INTERVALS (self w))).
Proof.
  induction inputs as [|i inputs IH]; intros w A St Hcalm Hs Hc; cbn zeta.
  - change (run copy (periods []) w) with w. cbn [List.length].
    split; [intros _ _; exact A|]. split; intros; lia.
  - rewrite periods_cons, run_app. cbn [calm forallb] in Hcalm.
    apply andb_prop in Hcalm. destruct Hcalm as [Hi Hrest].
    pose proof (calm_undetected f c i w St Hi) as Hd.
    destruct (period_spec copy f cb i w A) as (Hset & Hdoc & Hbase & Hst & Hfire & Hwait).
    unfold steadyAfter in *. rewrite Hd in *.
    set (w1 := run copy (period i) w) in *.
    unfold setting in Hset. injection Hset as _ Hr Hm _ _.
    cbn [List.length].
    destruct (Nat.le_gt_cases (_READY_AFTER_N_STEADY_STATE_INTERVALS (self w))
                              (S (_steadyStateIntervals (self w)))) as [Hle|Hgt].
    + destruct (Hfire Hle) as [F _].
      split; [lia|]. split; [intros _ _; apply fired_stable; exact F|lia].
    + destruct (Hwait Hgt) as [Hic Hnext].
      destruct (Nat.ltb_spec (_EXIT_REGARDLESS_AFTER_MAX_INTERVALS (self w))
                             (S (_intervalCount (self w)))) as [Hbad|Hok].
      * split; [lia|]. split; [lia|]. intros _ _.
        split; [apply expired_stable; exact Hnext|].
        pose proof (dead_periods copy inputs w1
                      (expired_intervals _ Hnext) (expired_timeouts _ Hnext)) as Hv.
        unfold outcomeView in Hv. injection Hv as _ _ _ _ Hcount.
        unfold w1 in *. rewrite Hcount, Hic. lia.
      * assert (St1 : Settled f c w1).
        { destruct St as [Hb Hdc]. split; [congruence|].
          intros Hf. rewrite Hdoc. destruct i as [d|]; [|exact (Hdc Hf)].
          apply Nat.eqb_eq in Hi. exact Hi. }
        specialize (IH w1 Hnext St1 Hrest). cbn zeta in IH.
        rewrite Hr, Hm, Hst, Hic in IH.
        destruct IH as (I1 & I2 & I3); [lia|lia|].
        split; [intros; apply I1; lia|].
        split; [intros; apply I2; lia|].
        intros. apply I3; lia.
Qed.

(** ** Periods that all change the page, with the state they leave *)

Lemma busy_run_state copy f cb ds : forall w,
  Armed f cb w ->
  _steadyStateIntervals (self w) = 0 ->
  0 < _READY_AFTER_N_STEADY_STATE_INTERVALS (self w) ->
  everChanging (baseline f w) ds = true ->
  _intervalCount (self w) + List.length ds <= _EXIT_REGARDLESS_AFTER_MAX_INTERVALS (self w) ->
  let w' := run copy (busy ds) w in
  Armed f cb w' /\
  _steadyStateIntervals (self w') = 0 /\
  _intervalCount (self w') = _intervalCount (self w) + List.length ds /\
  _READY_AFTER_N_STEADY_STATE_INTERVALS (self w')
    = _READY_AFTER_N_STEADY_STATE_INTERVALS (self w) /\
  _EXIT_REGARDLESS_AFTER_MAX_INTERVALS (self w')
    = _EXIT_REGARDLESS_AFTER_MAX_INTERVALS (self w) /\
  baseline f w' = lastCount (baseline f w) ds /\
  (ds <> [] -> _countElements (document (host w')) = lastCount (baseline f w) ds).
Proof.
  induction ds as [|d ds IH]; intros w A Hs Hr He Hc; cbn zeta.
  - change (run copy (busy []) w) with w. cbn [List.length lastCount fold_left].
    split; [exact A|]. split; [exact Hs|]. split; [lia|].
    split; [reflexivity|]. split; [reflexivity|]. split; [reflexivity|].
    intros H. contradiction H. reflexivity.
  - rewrite busy_cons, run_app. cbn [everChanging] in He. cbn [List.length] in Hc.
    apply andb_prop in He. destruct He as [Hch Hrest].
    destruct (period_spec copy f cb (Some d) w A) as (Hset & Hdoc & Hbase & Hst & _ & Hwait).
    assert (Hdet : detects f (Some d) w = true).
    { destruct f; cbn [detects baseline] in *; exact Hch. }
    assert (Hs' : steadyAfter copy f (Some d) w = 0).
    { unfold steadyAfter. rewrite Hdet, Hs. destruct f; [|destruct copy]; reflexivity. }
    rewrite Hdet in Hbase. rewrite Hs' in *.
    set (w1 := run copy (period (Some d)) w) in *.
    unfold setting in Hset. injection Hset as _ Hr1 Hm1 _ _.
    destruct (Hwait Hr) as [Hic Hnext].
    destruct (Nat.ltb_spec (_EXIT_REGARDLESS_AFTER_MAX_INTERVALS (self w))
                           (S (_intervalCount (self w)))) as [Hbad|Hok]; [lia|].
    rewrite Hdoc in Hbase.
    specialize (IH w1 Hnext Hst). cbn zeta in IH.
    rewrite Hr1, Hm1, Hic, Hbase in IH.
    destruct IH as (I1 & I2 & I3 & I4 & I5 & I6 & I7); [lia|exact Hrest|lia|].
    cbn [lastCount fold_left List.length].
    change (fold_left (fun _ d0 => _countElements d0) ds (_countElements d))
      with (lastCount (_countElements d) ds).
    split; [exact I1|]. split; [exact I2|]. split; [lia|].
    split; [exact I4|]. split; [exact I5|]. split; [exact I6|].
    intros _. destruct ds as [|d' ds'].
    + change (run copy (busy []) w1) with w1. rewrite Hdoc. reflexivity.
    + apply I7. discriminate.
Qed.

Lemma busy_settled copy f cb ds w :
  Armed f cb w ->
  _steadyStateIntervals (self w) = 0 ->
  0 < _READY_AFTER_N_STEADY_STATE_INTERVALS (self w) ->
  everChanging (baseline f w) ds = true ->
  _intervalCount (self w) + List.length ds <= _EXIT_REGARDLESS_AFTER_MAX_INTERVALS (self w) ->
  ds <> [] ->
  Settled f (lastCount (baseline f w) ds) (run copy (busy ds) w).
Proof.
  intros A Hs Hr He Hc Hne.
  destruct (busy_run_state copy f cb ds w A Hs Hr He Hc) as (_ & _ & _ & _ & _ & Hb & Hd).
  split; [exact Hb|]. intros _. apply Hd. exact Hne.
Qed.

Lemma calm_quiet c n : calm c (repeat None n) = true.
Proof. induction n as [|n IH]; [reflexivity|exact IH]. Qed.

Lemma calm_sameCount c ds : sameCount c ds = true -> calm c (map Some ds) = true.
Proof.
  induction ds as [|d ds IH]; [reflexivity|].
  cbn [sameCount calm forallb map]. intros H. apply andb_prop in H. destruct H as [H1 H2].
  rewrite H1. exact (IH H2).
Qed.

(** X10: on a validly configured watch, whatever the page does and for
    however long, the callback is called at most once; once it has been
    called no timeout follows and no timer of the watch is left; and
    after a timeout the callback is never called. *)
Theorem callback_at_most_once copy interval ready max support bound doc next cb inputs :
  ready < max ->
  let w' := run copy (periods inputs)
              (snd (start copy cb (pageLoad interval ready max support true bound doc next))) in
  (invoked (host w') = [] \/ invoked (host w') = [cb_id cb]) /\
  (loaded w' = true ->
     timedOut w' = false /\ activeIntervals (host w') = [] /\ pendingTimeouts (host w') = 0) /\
  (timedOut w' = true ->
     invoked (host w') = [] /\ activeIntervals (host w') = [] /\ pendingTimeouts (host w') = 0).
Proof.
  intros Hc w'. subst w'.
  assert (H : exists w1 f,
             snd (start copy cb (pageLoad interval ready max support true bound doc next)) = w1
             /\ (Fired cb w1 \/
                 (Armed f cb w1 /\
                  _intervalCount (self w1) <= _EXIT_REGARDLESS_AFTER_MAX_INTERVALS (self w1)))).
  { destruct ready as [|r].
    - destruct (start_pageLoad_immediate copy interval max support bound doc next cb)
        as (c & w1 & E & F); [lia|].
      exists w1, DomMutationsCountObserver. rewrite E. split; [reflexivity|left; exact F].
    - destruct (start_pageLoad copy interval (S r) max support bound doc next cb)
        as (w1 & E & A & _ & C1 & _ & _ & _ & M1); [lia|lia|].
      exists w1, (chosenObserver support). rewrite E.
      split; [reflexivity|right]. split; [exact A|lia]. }
  destruct H as (w1 & f & E & H). rewrite E. clear E.
  assert (T : Fired cb (run copy (periods inputs) w1)
              \/ Expired (run copy (periods inputs) w1)
              \/ Armed f cb (run copy (periods inputs) w1)).
  { destruct H as [F|[A Hi]].
    - left. apply fired_stable. exact F.
    - destruct (watch_progress copy f cb inputs w1 A Hi) as [F|[[X _]|[A' _]]]; auto. }
  destruct T as [F|[X|A]].
  - destruct F as [Hi Ha Ht Hn].
    split; [right; exact Hi|]. split; [intros _; auto|].
    intros H'. rewrite Hn in H'. discriminate H'.
  - destruct (expired_timedOut _ X) as [Hl Ht]. destruct X as [Hu Hi Ha Hp].
    split; [left; exact Hi|]. split; [intros H'; rewrite Hl in H'; discriminate H'|].
    intros _. auto.
  - destruct (armed_not_finished _ _ _ A) as [Hl Ht].
    split; [left; exact (armed_invoked _ _ _ A)|].
    split; intros H'; [rewrite Hl in H'|rewrite Ht in H']; discriminate H'.
Qed.

Lemma callback_at_most_once_witness :
  5 < 20 /\
  let w' := run Prototype (periods [None; Some filledPage; None])
              (snd (start Prototype alertCallback
                      (pageLoad 500 5 20 MO_Available true true emptyPage 1))) in
  (invoked (host w') = [] \/ invoked (host w') = [cb_id alertCallback]).
Proof.
  split; [lia|].
  apply (callback_at_most_once Prototype 500 5 20 MO_Available true emptyPage 1
           alertCallback [None; Some filledPage; None]).
  lia.
Defined.

(** X11: a validly configured watch is over after
    [_EXIT_REGARDLESS_AFTER_MAX_INTERVALS] periods at the latest,
    whatever the page does: by then no interval timer and no run of the
    driver is left, and either the callback has been called or the
    timeout error with [_EXIT_REGARDLESS_AFTER_MAX_INTERVALS] + 1 checks
    has been thrown. *)
Theorem watch_is_over_within_budget
    copy interval ready max support bound doc next cb inputs :
  ready < max ->
  max <= List.length inputs ->
  let w' := run copy (periods inputs)
              (snd (start copy cb (pageLoad interval ready max support true bound doc next))) in
  activeIntervals (host w') = [] /\
  pendingTimeouts (host w') = 0 /\
  ((invoked (host w') = [cb_id cb] /\ timedOut w' = false) \/
   (invoked (host w') = [] /\ uncaught (host w') = [TimeoutError (S max)])).
Proof.
  intros Hc Hlen w'. subst w'.
  destruct ready as [|r].
  - destruct (start_pageLoad_immediate copy interval max support bound doc next cb)
      as (c & w1 & E & F); [lia|].
    rewrite E. cbn [snd].
    destruct (fired_stable copy cb inputs w1 F) as [Hi Ha Ht Hn]. auto.
  - destruct (start_pageLoad copy interval (S r) max support bound doc next cb)
      as (w1 & E & A & _ & C1 & _ & _ & _ & M1); [lia|lia|].
    rewrite E. cbn [snd].
    destruct (watch_progress copy (chosenObserver support) cb inputs w1 A)
      as [F|[[X Hx]|(A' & Hi & Hle)]]; [lia| | |lia].
    + destruct F as [Hi Ha Ht Hn]. auto.
    + destruct X as [Hu Hi Ha Hp]. rewrite Hx, M1 in Hu. auto.
Qed.

Lemma watch_is_over_within_budget_witness :
  (1 < 2 /\ 2 <= List.length [Some filledPage; Some emptyPage]) /\
  activeIntervals
    (host (run Prototype (periods [Some filledPage; Some emptyPage])
             (snd (start Prototype alertCallback
                     (pageLoad 500 1 2 MO_Available true true emptyPage 1))))) = [].
Proof.
  split; [split; cbn; lia|].
  apply (watch_is_over_within_budget Prototype 500 1 2 MO_Available true emptyPage 1
           alertCallback [Some filledPage; Some emptyPage]); cbn; lia.
Defined.

(** X12: with a threshold of at least 1, after a first content with at
    least one element, when each further content of the first [k]
    periods has another element count than the content before it and
    the page is then left alone, and
    [k + _READY_AFTER_N_STEADY_STATE_INTERVALS] does not exceed the
    budget, the callback is called after exactly
    [k + _READY_AFTER_N_STEADY_STATE_INTERVALS] periods, with either
    observer and in all three copies.  (The first content counts as a
    change whatever the page held before: both observers compare it with
    their initial count 0.) *)
Theorem settles_after_changes copy interval ready max support bound doc next cb d0 ds n :
  0 < ready ->
  _countElements d0 <> 0 ->
  everChanging (_countElements d0) ds = true ->
  List.length (d0 :: ds) + ready <= max ->
  let w' := run copy (busy (d0 :: ds) ++ quiet n)
              (snd (start copy cb (pageLoad interval ready max support true bound doc next))) in
  (n < ready -> invoked (host w') = []) /\
  (ready <= n -> invoked (host w') = [cb_id cb] /\ activeIntervals (host w') = []).
Proof.
  intros Hr Hd0 Hrest Hlen w'. subst w'.
  assert (Hne : d0 :: ds <> []) by discriminate.
  assert (He : everChanging 0 (d0 :: ds) = true).
  { cbn [everChanging]. rewrite Hrest.
    destruct (Nat.eqb_spec 0 (_countElements d0)) as [H|H]; [lia|reflexivity]. }
  revert Hne He Hlen. generalize (d0 :: ds). clear d0 ds Hd0 Hrest. intros ds Hne He Hlen.
  assert (Hk : 0 < List.length ds) by (destruct ds; [contradiction|cbn; lia]).
  destruct (start_pageLoad copy interval ready max support bound doc next cb)
    as (w1 & E & A & S1 & C1 & B1 & _ & R1 & M1); [lia|lia|].
  rewrite E. cbn [snd]. rewrite run_app.
  set (f := chosenObserver support) in *.
  rewrite <- B1 in He.
  destruct (busy_run_state copy f cb ds w1 A S1) as (A2 & S2 & C2 & R2 & M2 & _ & _);
    [lia|exact He|lia|].
  pose proof (busy_settled copy f cb ds w1 A S1) as St.
  specialize (St ltac:(lia) He ltac:(lia) Hne).
  set (w2 := run copy (busy ds) w1) in *.
  destruct (calm_run copy f cb _ (repeat None n) w2 A2 St (calm_quiet _ n))
    as (K1 & K2 & _); [lia|lia|].
  rewrite repeat_length, R2, M2, S2, C2, R1, M1, C1 in K1, K2.
  unfold quiet. split; intros Hn.
  - apply (armed_invoked f cb). apply K1; lia.
  - destruct K2 as [Hi Ha _ _]; [lia|lia|]. auto.
Qed.

Lemma settles_after_changes_witness :
  (0 < 5 /\ _countElements filledPage <> 0 /\
   everChanging (_countElements filledPage) [emptyPage] = true /\
   List.length [filledPage; emptyPage] + 5 <= 20) /\
  invoked
    (host (run Prototype (busy [filledPage; emptyPage] ++ quiet 5)
             (snd (start Prototype alertCallback
                     (pageLoad 500 5 20 MO_Unavailable true true emptyPage 1)))))
  = [cb_id alertCallback].
Proof.
  split; [repeat split; try (cbn; lia); cbn; discriminate|].
  apply (settles_after_changes Prototype 500 5 20 MO_Unavailable true emptyPage 1
           alertCallback filledPage [emptyPage] 5);
    [lia|cbn; discriminate|reflexivity|cbn; lia|lia].
Defined.

(** X13: changes of the page that keep its element count are not seen by
    either observer.  After a first content with [c > 0] elements, a page
    whose content is replaced in every period by another content with
    [c] elements is declared loaded after
    [_READY_AFTER_N_STEADY_STATE_INTERVALS] of these periods. *)
Theorem same_count_changes_are_not_seen
    copy interval ready max support bound doc next cb d0 ds :
  0 < ready -> ready < max ->
  _countElements d0 <> 0 ->
  sameCount (_countElements d0) ds = true ->
  let w' := run copy (busy (d0 :: ds))
              (snd (start copy cb (pageLoad interval ready max support true bound doc next))) in
  (List.length ds < ready -> invoked (host w') = []) /\
  (ready <= List.length ds ->
     invoked (host w') = [cb_id cb] /\ activeIntervals (host w') = []).
Proof.
  intros Hr Hc Hd0 Hsame w'. subst w'.
  destruct (start_pageLoad copy interval ready max support bound doc next cb)
    as (w1 & E & A & S1 & C1 & B1 & _ & R1 & M1); [lia|lia|].
  rewrite E. cbn [snd]. rewrite busy_cons, run_app.
  change (run copy (period (Some d0)) w1) with (run copy (busy [d0]) w1).
  set (f := chosenObserver support) in *.
  assert (He : everChanging (baseline f w1) [d0] = true).
  { cbn [everChanging]. rewrite B1.
    destruct (Nat.eqb_spec 0 (_countElements d0)) as [H|H]; [lia|reflexivity]. }
  destruct (busy_run_state copy f cb [d0] w1 A S1) as (A2 & S2 & C2 & R2 & M2 & _ & _);
    [lia|exact He|cbn [List.length]; lia|].
  pose proof (busy_settled copy f cb [d0] w1 A S1) as St.
  specialize (St ltac:(lia) He ltac:(cbn [List.length]; lia) ltac:(discriminate)).
  change (lastCount (baseline f w1) [d0]) with (_countElements d0) in St.
  set (w2 := run copy (busy [d0]) w1) in *.
  destruct (calm_run copy f cb _ (map Some ds) w2 A2 St (calm_sameCount _ _ Hsame))
    as (K1 & K2 & _); [lia|cbn [List.length] in C2; lia|].
  rewrite length_map, R2, M2, S2, C2, R1, M1, C1 in K1, K2. cbn [List.length] in K1, K2.
  unfold busy. split; intros Hn.
  - apply (armed_invoked f cb). apply K1; lia.
  - destruct K2 as [Hi Ha _ _]; [lia|lia|]. auto.
Qed.

Lemma same_count_changes_are_not_seen_witness :
  (0 < 2 /\ 2 < 20 /\ _countElements filledPage <> 0 /\
   sameCount (_countElements filledPage) [filledPage; filledPage] = true) /\
  invoked
    (host (run Prototype (busy [filledPage; filledPage; filledPage])
             (snd (start Prototype alertCallback
                     (pageLoad 500 2 20 MO_Available true true emptyPage 1)))))
  = [cb_id alertCallback].
Proof.
  split; [repeat split; try (cbn; lia); cbn; discriminate|].
  apply (same_count_changes_are_not_seen Prototype 500 2 20 MO_Available true emptyPage 1
           alertCallback filledPage [filledPage; filledPage]);
    [lia|lia|cbn; discriminate|reflexivity|cbn; lia].
Defined.

(** X14: the budget counts every check that does not find the page
    loaded, the steady ones too.  After a first content with at least one
    element, when each further content of the first [k] periods
    ([k] below the budget) has another element count than the content
    before it and the page is then left alone, but
    [k + _READY_AFTER_N_STEADY_STATE_INTERVALS] exceeds the budget, the
    watch times out at period [_EXIT_REGARDLESS_AFTER_MAX_INTERVALS]
    although the page has settled, and the callback is never called. *)
Theorem settling_too_late_times_out
    copy interval ready max support bound doc next cb d0 ds n :
  0 < ready -> ready < max ->
  _countElements d0 <> 0 ->
  everChanging (_countElements d0) ds = true ->
  List.length (d0 :: ds) < max ->
  max < List.length (d0 :: ds) + ready ->
  let w' := run copy (busy (d0 :: ds) ++ quiet n)
              (snd (start copy cb (pageLoad interval ready max support true bound doc next))) in
  (List.length (d0 :: ds) + n < max ->
     invoked (host w') = [] /\ uncaught (host w') = []) /\
  (max <= List.length (d0 :: ds) + n ->
     uncaught (host w') = [TimeoutError (S max)] /\ invoked (host w') = [] /\
     activeIntervals (host w') = [] /\ pendingTimeouts (host w') = 0).
Proof.
  intros Hr Hc Hd0 Hrest Hk Hlate w'. subst w'.
  assert (Hne : d0 :: ds <> []) by discriminate.
  assert (He : everChanging 0 (d0 :: ds) = true).
  { cbn [everChanging]. rewrite Hrest.
    destruct (Nat.eqb_spec 0 (_countElements d0)) as [H|H]; [lia|reflexivity]. }
  revert Hne He Hk Hlate. generalize (d0 :: ds). clear d0 ds Hd0 Hrest.
  intros ds Hne He Hk Hlate.
  destruct (start_pageLoad copy interval ready max support bound doc next cb)
    as (w1 & E & A & S1 & C1 & B1 & _ & R1 & M1); [lia|lia|].
  rewrite E. cbn [snd]. rewrite run_app.
  set (f := chosenObserver support) in *.
  rewrite <- B1 in He.
  destruct (busy_run_state copy f cb ds w1 A S1) as (A2 & S2 & C2 & R2 & M2 & _ & _);
    [lia|exact He|lia|].
  pose proof (busy_settled copy f cb ds w1 A S1) as St.
  specialize (St ltac:(lia) He ltac:(lia) Hne).
  set (w2 := run copy (busy ds) w1) in *.
  destruct (calm_run copy f cb _ (repeat None n) w2 A2 St (calm_quiet _ n))
    as (K1 & _ & K3); [lia|lia|].
  rewrite repeat_length, R2, M2, S2, C2, R1, M1, C1 in K1, K3.
  unfold quiet. split; intros Hn.
  - destruct K1 as [_ _ _ Hi Hu _]; [lia|lia|]. auto.
  - destruct K3 as [[Hu Hi Ha Hp] Hx]; [lia|lia|].
    rewrite Hx in Hu. auto.
Qed.

Lemma settling_too_late_times_out_witness :
  (0 < 2 /\ 2 < 3 /\ _countElements filledPage <> 0 /\
   everChanging (_countElements filledPage) [emptyPage] = true /\
   List.length [filledPage; emptyPage] < 3 /\
   3 < List.length [filledPage; emptyPage] + 2) /\
  uncaught
    (host (run Prototype (busy [filledPage; emptyPage] ++ quiet 1)
             (snd (start Prototype alertCallback
                     (pageLoad 500 2 3 MO_Available true true emptyPage 1)))))
  = [TimeoutError 4].
Proof.
  split; [repeat split; try (cbn; lia); cbn; discriminate|].
  apply (settling_too_late_times_out Prototype 500 2 3 MO_Available true emptyPage 1
           alertCallback filledPage [emptyPage] 1);
    [lia|lia|cbn; discriminate|reflexivity|cbn; lia|cbn; lia|cbn; lia].
Defined.

(** ** A second call on the static copies *)

Lemma mutationObserverCallback_timers w :
  timersView (dispatch mutationObserverCallback w) = timersView w.
Proof. explode w. unfold timersView. js_run; js_goal. Qed.

Lemma observer_timers copy f w :
  timersView (dispatch (observer copy f) w) = timersView w.
Proof. explode w. unfold timersView. destruct f, copy; js_run; js_goal. Qed.

(** What a run of the driver can do to the timers and the calls. *)
Lemma driver_timers w :
  let w' := dispatch _executeCallbackAfterPageIsLoaded w in
  _domMutationOrNodeCountIntervalCheck (self w') = _domMutationOrNodeCountIntervalCheck (self w) /\
  _user_callback (self w') = _user_callback (self w) /\
  (activeIntervals (host w') = activeIntervals (host w) \/
   exists id, _domMutationOrNodeCountIntervalCheck (self w) = Some id /\
              activeIntervals (host w') =
              filter (fun t => negb (fst t =? id)) (activeIntervals (host w))) /\
  (invoked (host w') = invoked (host w) \/
   exists cb, _user_callback (self w) = Some cb /\
              invoked (host w') = cb_id cb :: invoked (host w)).
Proof.
  explode w.
  destruct _domMutationOrNodeCountIntervalCheck0 as [id|],
           _user_callback0 as [[cid cthrows]|].
  all: js_run.
  all: split; [reflexivity|]; split; [reflexivity|]; split.
  all: first [ left; reflexivity
             | right; eexists; split; reflexivity
             | right; eexists; split; [reflexivity|exact (filter_filter _ _)] ].
Qed.

Lemma existsb_filter_other (id other : nat) (l : list (nat * Observer)) :
  id <> other ->
  existsb (fun t => fst t =? id) (filter (fun t => negb (fst t =? other)) l)
  = existsb (fun t => fst t =? id) l.
Proof.
  intros Hne. induction l as [|[i f] l IH]; [reflexivity|].
  cbn [filter existsb fst].
  destruct (Nat.eqb_spec i other) as [E|E]; cbn [negb existsb fst].
  - subst i. destruct (Nat.eqb_spec other id) as [E'|E']; [congruence|exact IH].
  - rewrite IH. reflexivity.
Qed.

Lemma Orphaned_view id other w w' :
  timersView w' = timersView w -> Orphaned id other w -> Orphaned id other w'.
Proof.
  unfold timersView, Orphaned. intros H. injection H as Hh Hc Ha Hi.
  rewrite Hh, Hc, Ha, Hi. tauto.
Qed.

Lemma driver_Orphaned id other w :
  Orphaned id other w -> Orphaned id other (dispatch _executeCallbackAfterPageIsLoaded w).
Proof.
  intros (Hrun & Hh & Hc & Hi).
  destruct (driver_timers w) as (Eh & Ec & Ha & Hv).
  unfold Orphaned. rewrite Eh, Ec.
  split; [|split; [exact Hh|split; [exact Hc|]]].
  - destruct Ha as [Ha|(id' & Hid & Ha)]; rewrite Ha; [exact Hrun|].
    rewrite existsb_filter_other; [exact Hrun|].
    intros Heq. subst id'. contradiction.
  - destruct Hv as [Hv|(cb & Hcb & Hv)]; rewrite Hv; [exact Hi|].
    intros [Hin|Hin]; [exact (Hc cb Hcb Hin)|exact (Hi Hin)].
Qed.

Lemma iter_preserves (P : World -> Prop) (f : World -> World) :
  (forall w, P w -> P (f w)) -> forall n w, P w -> P (Nat.iter n f w).
Proof.
  intros Hf n w Hw. induction n as [|n IH]; [exact Hw|].
  rewrite Nat.iter_succ. apply Hf. exact IH.
Qed.

Lemma fold_left_preserves {A} (P : World -> Prop) (f : World -> A -> World) :
  (forall w a, P w -> P (f w a)) -> forall l w, P w -> P (fold_left f l w).
Proof.
  intros Hf l. induction l as [|a l IH]; intros w Hw; [exact Hw|].
  cbn [fold_left]. apply IH. apply Hf. exact Hw.
Qed.

Lemma step_Orphaned copy id other e w :
  Orphaned id other w -> Orphaned id other (step copy e w).
Proof.
  intros H. destruct e as [d| |]; cbn [step].
  - apply iter_preserves; [|exact H].
    intros w0 H0.
    apply (Orphaned_view id other _ _ (mutationObserverCallback_timers _)). exact H0.
  - apply fold_left_preserves; [|exact H].
    intros w0 t H0.
    apply (Orphaned_view id other _ _ (observer_timers copy _ _)). exact H0.
  - destruct (pendingTimeouts (host w)) as [|n]; [exact H|].
    apply driver_Orphaned. exact H.
Qed.

Lemma run_Orphaned copy id other events w :
  Orphaned id other w -> Orphaned id other (run copy events w).
Proof.
  unfold run. apply fold_left_preserves. intros w0 e. apply step_Orphaned.
Qed.

(** X15: the static copies have no reuse guard.  A second call of
    [callWhenReadyToGo] during a watch returns normally and takes the
    object over: from then on, whatever happens, the interval timer of
    the first call keeps running (its handle was overwritten, so nothing
    can clear it) and the callback of the first call is never called. *)
Theorem static_second_call_orphans_first
    copy interval ready max support bound doc next cb1 cb2 :
  isPrototype copy = false ->
  0 < ready -> ready < max ->
  cb_id cb1 <> cb_id cb2 ->
  let w1 := snd (start copy cb1 (pageLoad interval ready max support true bound doc next)) in
  fst (start copy cb2 w1) = Normal tt /\
  forall events,
    let w' := run copy events (snd (start copy cb2 w1)) in
    intervalRunning (Some next) w' = true /\
    ~ In (cb_id cb1) (invoked (host w')).
Proof.
  intros Hp Hr Hc Hne w1. subst w1.
  destruct (start_arms_one_watch copy cb1
              (pageLoad interval ready max support true bound doc next))
    as (w1 & E1 & A1 & H1 & N1 & _ & _ & I1 & _ & _ & _ & _ & R1 & M1 & W1 & _);
    [rewrite Hp; discriminate|cbn; lia|cbn; lia|reflexivity|].
  rewrite E1. cbn [snd].
  cbn in A1, N1, I1, R1, M1.
  destruct (start_arms_one_watch copy cb2 w1)
    as (w2 & E2 & A2 & H2 & _ & _ & C2 & I2 & _);
    [rewrite Hp; discriminate|lia|lia|exact W1|].
  rewrite E2. cbn [fst snd]. split; [reflexivity|].
  intros events.
  assert (O : Orphaned next (cb_id cb1) w2).
  { unfold Orphaned. rewrite A2, A1, H2, C2, I2, I1, N1.
    split; [cbn; rewrite Nat.eqb_refl; reflexivity|].
    split; [intros H; injection H as H; lia|].
    split; [|intros []].
    intros cb H. injection H as H. subst cb. congruence. }
  destruct (run_Orphaned copy next (cb_id cb1) events w2 O) as (Hrun & _ & _ & Hi).
  cbn zeta. split; [exact Hrun|exact Hi].
Qed.

Lemma static_second_call_orphans_first_witness :
  (isPrototype StaticRevised = false /\ 0 < 5 /\ 5 < 20 /\
   cb_id alertCallback <> cb_id failingCallback) /\
  fst (start StaticRevised failingCallback
         (snd (start StaticRevised alertCallback
                 (pageLoad 500 5 20 MO_Available true true emptyPage 1)))) = Normal tt.
Proof.
  split; [repeat split; try lia; cbn; discriminate|].
  apply (static_second_call_orphans_first StaticRevised 500 5 20 MO_Available true
           emptyPage 1 alertCallback failingCallback);
    [reflexivity|lia|lia|cbn; discriminate].
Defined.

(** ** A change that is undone within a period *)


